(** * Verification of the retrieval and risk-analysis core of smartclm

    Shallow embedding of the Python sources
    - [src/src/documents/chunking.py]       (HierarchicalChunker),
    - [src/src/documents/repository.py]     (search_documents_hybrid),
    - [src/src/aws/embedding_service.py]    (embed_chunked_documents),
    - [src/rag_pipeline.py]                 (chain stages 1-3, section splitter).

    Python strings are sequences of Unicode code points; they are modelled as
    [list N].  Python values built from JSON (the LLM output) and the dicts the
    pipeline passes around are modelled by [pyval]; a dict is an association
    list in insertion order.  An operation that raises is modelled by [None]
    (or by the [Exc] constructor of [outcome]) and the [try]/[except] blocks
    of the source are written out where they catch it. *)

From Stdlib Require Import ZArith QArith List Bool String Ascii Lia.
From Stdlib Require Import Sorting.Sorted Sorting.Permutation.
From Stdlib Require Import Numbers.DecimalNat Numbers.DecimalFacts.
Import ListNotations.
Set Warnings "-register-all".

Open Scope N_scope.

(* ------------------------------------------------------------------ *)
(** ** Text *)

Definition char := N.
Definition str := list char.

(** Decoding of the UTF-8 bytes of a Rocq string literal into code points;
    used only to write the source's string constants readably. *)
Fixpoint utf8_decode_fuel (fuel : nat) (bs : list N) : str :=
  match fuel with
  | O => []
  | S f =>
    match bs with
    | [] => []
    | b0 :: r =>
      if b0 <? 128 then b0 :: utf8_decode_fuel f r
      else if b0 <? 224 then
        match r with
        | b1 :: r' => (N.land b0 31 * 64 + N.land b1 63) :: utf8_decode_fuel f r'
        | [] => []
        end
      else if b0 <? 240 then
        match r with
        | b1 :: b2 :: r' =>
          (N.land b0 15 * 4096 + N.land b1 63 * 64 + N.land b2 63)
            :: utf8_decode_fuel f r'
        | _ => []
        end
      else
        match r with
        | b1 :: b2 :: b3 :: r' =>
          (N.land b0 7 * 262144 + N.land b1 63 * 4096 + N.land b2 63 * 64
             + N.land b3 63) :: utf8_decode_fuel f r'
        | _ => []
        end
    end
  end.

Definition u (s : string) : str :=
  let bs := List.map N_of_ascii (list_ascii_of_string s) in
  utf8_decode_fuel (List.length bs) bs.

Definition JE : char := 51228.  (* the syllable "je" of the clause idiom *)
Definition JO : char := 51312.  (* the syllable "jo" of the clause idiom *)

Definition char_eqb (a b : char) : bool := N.eqb a b.

Fixpoint str_eqb (a b : str) : bool :=
  match a, b with
  | [], [] => true
  | x :: a', y :: b' => N.eqb x y && str_eqb a' b'
  | _, _ => false
  end.

(** [str.isspace] / the [\s] class of [re] on [str] patterns. *)
Definition is_space (c : char) : bool :=
  ((9 <=? c) && (c <=? 13)) || ((28 <=? c) && (c <=? 32)) || (c =? 133)
  || (c =? 160) || (c =? 5760) || ((8192 <=? c) && (c <=? 8202))
  || (c =? 8232) || (c =? 8233) || (c =? 8239) || (c =? 8287) || (c =? 12288).

Fixpoint lstrip (s : str) : str :=
  match s with
  | c :: r => if is_space c then lstrip r else s
  | [] => []
  end.

(** [str.strip()] *)
Definition strip (s : str) : str := rev (lstrip (rev (lstrip s))).

Definition is_digit (c : char) : bool := (48 <=? c) && (c <=? 57).

Fixpoint starts_with (p s : str) : bool :=
  match p, s with
  | [], _ => true
  | x :: p', y :: s' => N.eqb x y && starts_with p' s'
  | _ :: _, [] => false
  end.

Fixpoint strip_prefix (p s : str) : option str :=
  match p, s with
  | [], _ => Some s
  | x :: p', y :: s' => if N.eqb x y then strip_prefix p' s' else None
  | _ :: _, [] => None
  end.

(** [sub in s] *)
Fixpoint contains (sub s : str) : bool :=
  starts_with sub s || match s with [] => false | _ :: r => contains sub r end.

(** [s.split(sep)] for a one-character separator *)
Fixpoint split_char (sep : char) (s : str) : list str :=
  match s with
  | [] => [[]]
  | c :: r =>
    if N.eqb c sep then [] :: split_char sep r
    else match split_char sep r with
         | w :: ws => (c :: w) :: ws
         | [] => [[c]]
         end
  end.

(** [sep.join(ws)] *)
Fixpoint join (sep : str) (ws : list str) : str :=
  match ws with
  | [] => []
  | [w] => w
  | w :: ws' => w ++ sep ++ join sep ws'
  end.

(** [s.split(sep)] for a separator of two characters or more
    (the paragraph split [split('\n\n')]). *)
Fixpoint split_on_fuel (fuel : nat) (sep s : str) : list str :=
  match fuel with
  | O => [s]
  | S f =>
    match s with
    | [] => [[]]
    | c :: r =>
      match strip_prefix sep s with
      | Some rest => [] :: split_on_fuel f sep rest
      | None =>
        match split_on_fuel f sep r with
        | w :: ws => (c :: w) :: ws
        | [] => [[c]]
        end
      end
    end
  end.

Definition split_on (sep s : str) : list str :=
  split_on_fuel (S (List.length s)) sep s.

(** [s.replace(old, empty string)] (non-overlapping, left to right) *)
Fixpoint remove_all_fuel (fuel : nat) (old s : str) : str :=
  match fuel with
  | O => s
  | S f =>
    match s with
    | [] => []
    | c :: r =>
      match strip_prefix old s with
      | Some rest => remove_all_fuel f old rest
      | None => c :: remove_all_fuel f old r
      end
    end
  end.

Definition remove_all (old s : str) : str :=
  remove_all_fuel (S (List.length s)) old s.

(** [str(n)] for a natural number *)
Fixpoint uint_to_str (d : Decimal.uint) : str :=
  match d with
  | Decimal.Nil => []
  | Decimal.D0 d' => 48 :: uint_to_str d'
  | Decimal.D1 d' => 49 :: uint_to_str d'
  | Decimal.D2 d' => 50 :: uint_to_str d'
  | Decimal.D3 d' => 51 :: uint_to_str d'
  | Decimal.D4 d' => 52 :: uint_to_str d'
  | Decimal.D5 d' => 53 :: uint_to_str d'
  | Decimal.D6 d' => 54 :: uint_to_str d'
  | Decimal.D7 d' => 55 :: uint_to_str d'
  | Decimal.D8 d' => 56 :: uint_to_str d'
  | Decimal.D9 d' => 57 :: uint_to_str d'
  end.

Definition show_nat (n : nat) : str := uint_to_str (Nat.to_uint n).

(** [str(z)] for an integer *)
Definition show_Z (z : Z) : str :=
  if (z <? 0)%Z then 45 :: show_nat (Z.to_nat (- z)) else show_nat (Z.to_nat z).

(** [int(ds)] for a string of ASCII digits *)
Definition digits_val (ds : str) : Z :=
  fold_left (fun acc c => (acc * 10 + Z.of_N (c - 48))%Z) ds 0%Z.

(* ------------------------------------------------------------------ *)
(** ** Python values and dicts *)

(** The Python values the pipeline handles: what [json.loads] builds and the
    dicts passed between stages.  A JSON number without fraction or exponent
    is an [int]; any other number is a [float], kept as its literal text. *)
Inductive pyval : Type :=
| PNone
| PBool (b : bool)
| PInt (z : Z)
| PFloat (lexeme : str)
| PStr (s : str)
| PList (l : list pyval)
| PDict (kv : list (str * pyval)).

Definition dict := list (str * pyval).

(** [d.get(k, default)] *)
Fixpoint dget (d : dict) (k : str) (default : pyval) : pyval :=
  match d with
  | [] => default
  | (k', v) :: d' => if str_eqb k k' then v else dget d' k default
  end.

Fixpoint dmem (d : dict) (k : str) : bool :=
  match d with
  | [] => false
  | (k', _) :: d' => str_eqb k k' || dmem d' k
  end.

(** [d[k] = v]: replaces the value in place, or appends a new key. *)
Fixpoint dset (d : dict) (k : str) (v : pyval) : dict :=
  match d with
  | [] => [(k, v)]
  | (k', v') :: d' => if str_eqb k k' then (k', v) :: d' else (k', v') :: dset d' k v
  end.

(** [dict(pairs)]: the last value of a repeated key wins, at the position
    of its first occurrence. *)
Definition dict_of_pairs (ps : list (str * pyval)) : dict :=
  fold_left (fun d '(k, v) => dset d k v) ps [].

(** A float literal is zero when every digit of its mantissa is 0. *)
Fixpoint mantissa_zero (lex : str) : bool :=
  match lex with
  | [] => true
  | c :: r =>
    if (c =? 101) || (c =? 69) then true            (* e / E *)
    else if is_digit c then (c =? 48) && mantissa_zero r
    else mantissa_zero r                            (* - and . *)
  end.

(** [bool(v)] *)
Definition truthy (v : pyval) : bool :=
  match v with
  | PNone => false
  | PBool b => b
  | PInt z => negb (Z.eqb z 0)
  | PFloat lex =>
    (* NaN, Infinity and -Infinity are true *)
    if is_digit (hd 0 (match lex with 45 :: r => r | _ => lex end))
    then negb (mantissa_zero lex) else true
  | PStr s => negb (Nat.eqb (List.length s) 0)
  | PList l => negb (Nat.eqb (List.length l) 0)
  | PDict kv => negb (Nat.eqb (List.length kv) 0)
  end.

(** [str(v)] of a JSON value, exact for None, booleans, integers and
    strings; floats, lists and dicts are rendered by their literal text or a
    placeholder (no statement below depends on their rendering). *)
Definition py_str (v : pyval) : str :=
  match v with
  | PNone => u "None"
  | PBool true => u "True"
  | PBool false => u "False"
  | PInt z => show_Z z
  | PFloat lex => lex
  | PStr s => s
  | PList _ => u "[...]"
  | PDict _ => u "{...}"
  end.

(* ------------------------------------------------------------------ *)
(** ** json.loads *)

(** JSON whitespace of the [json] module: space, tab, newline, return. *)
Definition is_json_ws (c : char) : bool :=
  (c =? 32) || (c =? 9) || (c =? 10) || (c =? 13).

Fixpoint skip_ws (s : str) : str :=
  match s with
  | c :: r => if is_json_ws c then skip_ws r else s
  | [] => []
  end.

Fixpoint take_while (p : char -> bool) (s : str) : str * str :=
  match s with
  | c :: r => if p c then let (a, b) := take_while p r in (c :: a, b) else ([], s)
  | [] => ([], [])
  end.

Definition hex_val (c : char) : option N :=
  if is_digit c then Some (c - 48)
  else if (97 <=? c) && (c <=? 102) then Some (c - 87)
  else if (65 <=? c) && (c <=? 70) then Some (c - 55)
  else None.

Definition hex4 (s : str) : option (N * str) :=
  match s with
  | a :: b :: c :: d :: r =>
    match hex_val a, hex_val b, hex_val c, hex_val d with
    | Some x, Some y, Some z, Some w => Some (x * 4096 + y * 256 + z * 16 + w, r)
    | _, _, _, _ => None
    end
  | _ => None
  end.

(** [scanstring] with [strict=True], after the opening quote; [acc] holds
    the decoded characters in reverse; [fuel] is the length of the text. *)
Fixpoint scan_string_fuel (fuel : nat) (s : str) (acc : str) : option (str * str) :=
  match fuel with O => None | S f =>
  match s with
  | [] => None
  | c :: r =>
    if c =? 34 then Some (rev acc, r)
    else if c <? 32 then None                       (* invalid control character *)
    else if c =? 92 then
      match r with
      | [] => None
      | e :: r' =>
        if e =? 34 then scan_string_fuel f r' (34 :: acc)
        else if e =? 92 then scan_string_fuel f r' (92 :: acc)
        else if e =? 47 then scan_string_fuel f r' (47 :: acc)
        else if e =? 98 then scan_string_fuel f r' (8 :: acc)
        else if e =? 102 then scan_string_fuel f r' (12 :: acc)
        else if e =? 110 then scan_string_fuel f r' (10 :: acc)
        else if e =? 114 then scan_string_fuel f r' (13 :: acc)
        else if e =? 116 then scan_string_fuel f r' (9 :: acc)
        else if e =? 117 then
          match hex4 r' with
          | None => None
          | Some (x, r'') =>
            if (55296 <=? x) && (x <=? 56319) then
              (* a high surrogate is combined with a following \u low surrogate *)
              match r'' with
              | 92 :: 117 :: r3 =>
                match hex4 r3 with
                | Some (y, r4) =>
                  if (56320 <=? y) && (y <=? 57343)
                  then scan_string_fuel f r4 (65536 + (x - 55296) * 1024 + (y - 56320) :: acc)
                  else scan_string_fuel f r'' (x :: acc)
                | None => scan_string_fuel f r'' (x :: acc)
                end
              | _ => scan_string_fuel f r'' (x :: acc)
              end
            else scan_string_fuel f r'' (x :: acc)
          end
        else None                                   (* invalid \escape *)
      end
    else scan_string_fuel f r (c :: acc)
  end end.

Definition scan_string (s : str) (acc : str) : option (str * str) :=
  scan_string_fuel (List.length s) s acc.

(** [_match_number_unicode]: an integer part, an optional fraction and an
    optional exponent (the exponent is given back when it has no digit). *)
Definition scan_number (s : str) : option (pyval * str) :=
  let (sign, s1) := match s with 45 :: r => ([45], r) | _ => ([], s) end in
  let int_part :=
    match s1 with
    | 48 :: r => Some ([48], r)
    | c :: _ => if (49 <=? c) && (c <=? 57) then Some (take_while is_digit s1) else None
    | [] => None
    end in
  match int_part with
  | None => None
  | Some (ip, s2) =>
    let '(frac, s3) :=
      match s2 with
      | 46 :: d :: r => if is_digit d
                        then let (ds, r') := take_while is_digit r in (46 :: d :: ds, r')
                        else ([], s2)
      | _ => ([], s2)
      end in
    let '(ex, s4) :=
      match s3 with
      | e :: r =>
        if (e =? 101) || (e =? 69) then
          let '(sg, r1) := match r with
                           | 43 :: r' => ([43], r') | 45 :: r' => ([45], r')
                           | _ => ([], r) end in
          let (ds, r2) := take_while is_digit r1 in
          match ds with [] => ([], s3) | _ => (e :: sg ++ ds, r2) end
        else ([], s3)
      | [] => ([], s3)
      end in
    match frac, ex with
    | [], [] => Some (PInt (let v := digits_val ip in
                            match sign with [] => v | _ => (- v)%Z end), s4)
    | _, _ => Some (PFloat (sign ++ ip ++ frac ++ ex), s4)
    end
  end.

(** [scan_once] with the object and array parsers.  [fuel] bounds the
    nesting; [json_loads] gives it twice the length of the text. *)
Fixpoint parse_value (fuel : nat) (s : str) {struct fuel} : option (pyval * str) :=
  match fuel with
  | O => None
  | S f =>
    match s with
    | [] => None
    | c :: r =>
      if c =? 34 then
        match scan_string r [] with Some (x, r') => Some (PStr x, r') | None => None end
      else if c =? 123 then
        match skip_ws r with
        | 125 :: r' => Some (PDict [], r')
        | r' => match parse_members f r' [] with
                | Some (ps, r'') => Some (PDict (dict_of_pairs ps), r'')
                | None => None
                end
        end
      else if c =? 91 then
        match skip_ws r with
        | 93 :: r' => Some (PList [], r')
        | r' => match parse_elems f r' [] with
                | Some (vs, r'') => Some (PList vs, r'')
                | None => None
                end
        end
      else match strip_prefix (u "null") s with Some r' => Some (PNone, r') | None =>
           match strip_prefix (u "true") s with Some r' => Some (PBool true, r') | None =>
           match strip_prefix (u "false") s with Some r' => Some (PBool false, r') | None =>
           match strip_prefix (u "NaN") s with Some r' => Some (PFloat (u "NaN"), r') | None =>
           match strip_prefix (u "Infinity") s with
           | Some r' => Some (PFloat (u "Infinity"), r') | None =>
           match strip_prefix (u "-Infinity") s with
           | Some r' => Some (PFloat (u "-Infinity"), r')
           | None => scan_number s
           end end end end end end
    end
  end
with parse_elems (fuel : nat) (s : str) (acc : list pyval) {struct fuel}
  : option (list pyval * str) :=
  match fuel with
  | O => None
  | S f =>
    match parse_value f s with
    | None => None
    | Some (v, r) =>
      match skip_ws r with
      | 93 :: r' => Some (rev (v :: acc), r')
      | 44 :: r' => parse_elems f (skip_ws r') (v :: acc)
      | _ => None
      end
    end
  end
with parse_members (fuel : nat) (s : str) (acc : list (str * pyval)) {struct fuel}
  : option (list (str * pyval) * str) :=
  match fuel with
  | O => None
  | S f =>
    match s with
    | 34 :: r =>
      match scan_string r [] with
      | None => None
      | Some (k, r1) =>
        match skip_ws r1 with
        | 58 :: r2 =>
          match parse_value f (skip_ws r2) with
          | None => None
          | Some (v, r3) =>
            match skip_ws r3 with
            | 125 :: r4 => Some (rev ((k, v) :: acc), r4)
            | 44 :: r4 => parse_members f (skip_ws r4) ((k, v) :: acc)
            | _ => None
            end
          end
        | _ => None
        end
      end
    | _ => None
    end
  end.

(** [json.loads(s)]; [None] is a [JSONDecodeError]. *)
Definition json_loads (s : str) : option pyval :=
  match s with
  | 65279 :: _ => None                              (* unexpected UTF-8 BOM *)
  | _ =>
    match parse_value (2 * List.length s + 2) (skip_ws s) with
    | Some (v, r) => match skip_ws r with [] => Some v | _ => None end  (* extra data *)
    | None => None
    end
  end.

(* ------------------------------------------------------------------ *)
(** ** JSON extraction of the chain stages *)

Definition FENCE : str := u "```json".

Definition TICKS : str := u "```".

(** The lazy part [\{.*?\}\s*```] of the pattern: [s] follows the opening
    brace, [acc] is the group read so far, reversed.  The first closing
    brace followed by optional whitespace and three backticks ends it. *)
Fixpoint lazy_close (s : str) (acc : str) : option str :=
  match s with
  | [] => None
  | c :: r =>
    if (c =? 125) && starts_with TICKS (lstrip r) then Some (rev (c :: acc))
    else lazy_close r (c :: acc)
  end.

(** The pattern anchored at the start of [s]. *)
Definition fence_at (s : str) : option str :=
  match strip_prefix FENCE s with
  | None => None
  | Some r =>
    match lstrip r with
    | 123 :: r' => lazy_close r' [123]
    | _ => None
    end
  end.

(** [re.search(r'```json\s*(\{.*?\})\s*```', text, re.DOTALL)]: the
    leftmost start position that matches; [group(1)]. *)
Fixpoint search_fence (s : str) : option str :=
  match fence_at s with
  | Some g => Some g
  | None => match s with [] => None | _ :: r => search_fence r end
  end.

(** The [json_str] of stages 1 and 3 (rag_pipeline.py, lines 872-878 and
    1034-1039). *)
Definition extract_json (response_text : str) : str :=
  match search_fence response_text with
  | Some g => g
  | None => strip response_text
  end.

(** The code points of the digit zero of each run of ten Unicode decimal
    digits (category Nd, Unicode 15 as in Python 3.11): [\d] of a [str]
    pattern matches exactly these runs, and [int] reads them. *)
Definition ND_ZEROS : list N :=
  [48; 1632; 1776; 1984; 2406; 2534; 2662; 2790; 2918; 3046; 3174; 3302; 3430;
   3558; 3664; 3792; 3872; 4160; 4240; 6112; 6160; 6470; 6608; 6784; 6800; 6992;
   7088; 7232; 7248; 42528; 43216; 43264; 43472; 43504; 43600; 44016; 65296;
   66720; 68912; 69734; 69872; 69942; 70096; 70384; 70736; 70864; 71248; 71360;
   71472; 71904; 72016; 72784; 73040; 73120; 92768; 92864; 93008; 120782;
   120792; 120802; 120812; 120822; 123200; 123632; 125264; 130032].

Definition re_digit_zero (c : char) : option N :=
  find (fun z => (z <=? c) && (c <? z + 10)) ND_ZEROS.

(** [\d] *)
Definition is_re_digit (c : char) : bool :=
  match re_digit_zero c with Some _ => true | None => false end.

(** [int(ds)] for a run of [\d] characters *)
Definition re_digits_val (ds : str) : Z :=
  fold_left (fun acc c =>
    (acc * 10 + Z.of_N (c - match re_digit_zero c with Some z => z | None => 0 end))%Z)
    ds 0%Z.

(** [re.search(r'제(\d+)조', clause_num)]: [Some (int(group(1)))] for the
    leftmost occurrence. *)
Fixpoint re_clause (s : str) : option Z :=
  match s with
  | [] => None
  | c :: r =>
    if c =? JE then
      match take_while is_re_digit r with
      | (d :: ds, c2 :: _) => if c2 =? JO then Some (re_digits_val (d :: ds)) else re_clause r
      | _ => re_clause r
      end
    else re_clause r
  end.

(* ------------------------------------------------------------------ *)
(** ** Chain stage 1: [_chain1_identify_violations] *)

(** The outcome of [bedrock_service.invoke_model]: the response text, or an
    exception. *)
Inductive llm_outcome := LText (t : str) | LRaise.

(** The body of [for violation in violations] for one element: [None] when
    it raises ([violation.get] on a non-dict, [re.search] on a non-string). *)
Definition assign_chunk_index (violation : pyval) : option pyval :=
  match violation with
  | PDict kv =>
    match dget kv (u "clause_number") (PStr []) with
    | PStr clause_num =>
      let idx := match re_clause clause_num with
                 | Some n => (n - 1)%Z
                 | None => 0%Z
                 end in
      Some (PDict (dset kv (u "chunk_index") (PInt idx)))
    | _ => None
    end
  | _ => None
  end.

Fixpoint map_opt {A B} (f : A -> option B) (l : list A) : option (list B) :=
  match l with
  | [] => Some []
  | x :: l' => match f x, map_opt f l' with
               | Some y, Some l'' => Some (y :: l'')
               | _, _ => None
               end
  end.

(** The loop over [violations] followed by [return violations]; the dicts
    are updated in place, so the returned value is the same list with each
    element updated.  Iterating a string or a dict yields one-character
    strings or keys, on which [.get] raises; other scalars are not
    iterable. *)
Definition resolve_violations (violations : pyval) : option pyval :=
  match violations with
  | PList l => match map_opt assign_chunk_index l with
               | Some l' => Some (PList l')
               | None => None
               end
  | PStr [] => Some violations
  | PDict [] => Some violations
  | _ => None
  end.

(** Stage 1 from the model's response on.  Every exception of the [try]
    block ends in [return []]. *)
Definition chain1_parse (response_text : str) : pyval :=
  match json_loads (extract_json response_text) with
  | None => PList []                                (* JSONDecodeError *)
  | Some (PDict result) =>
    match resolve_violations (dget result (u "violations") (PList [])) with
    | Some v => v
    | None => PList []
    end
  | Some _ => PList []                              (* result.get raises *)
  end.

(** [_chain1_identify_violations], given the outcome of the model call on
    the stage-1 prompt. *)
Definition chain1 (response : llm_outcome) : pyval :=
  match response with
  | LRaise => PList []
  | LText t => chain1_parse t
  end.

(* ------------------------------------------------------------------ *)
(** ** Chain stage 2: [_chain2_search_related_laws] *)

(** [_search_laws_for_violation]: [search] is the outcome of
    [await self.client.search_documents_direct(...)], [None] when it
    raises; [search_documents_direct] itself returns the rows under
    ["results"], or [[]] when its own search fails. *)
Definition search_laws_for_violation (violation : dict) (search : option (list pyval)) : dict :=
  match search with
  | Some results =>
    let legal_docs := [(u "results", PList results)] in
    let laws := dget legal_docs (u "results") (PList []) in
    dset (dset violation (u "related_laws") laws) (u "laws_found")
         (PInt (Z.of_nat (List.length results)))
  | None =>
    dset (dset violation (u "related_laws") (PList [])) (u "laws_found") (PInt 0)
  end.

(** The search query [f"{clause_title} {brief_reason}"]. *)
Definition search_query (violation : dict) : str :=
  py_str (dget violation (u "clause_title") (PStr [])) ++ [32]
  ++ py_str (dget violation (u "brief_reason") (PStr [])).

(** [search_documents_direct] (rag_pipeline.py, lines 124-207): [db q] is
    the outcome of its embedding and database query for [q] ([None] when
    one of them raises); the rows, or [[]] from its [except] branch. *)
Definition search_documents_direct (db : str -> option (list pyval)) (q : str) : list pyval :=
  match db q with
  | Some rows => rows
  | None => []
  end.

(** [_chain2_search_related_laws]: one task per candidate, gathered with
    [return_exceptions=True]; no task raises, so every result is kept, in
    the order of the candidates. *)
Definition chain2 (db : str -> option (list pyval)) (candidates : list dict) : list dict :=
  map (fun v => search_laws_for_violation v
                  (Some (search_documents_direct db (search_query v)))) candidates.

(* ------------------------------------------------------------------ *)
(** ** Chain stage 3: [_chain3_detailed_analysis] *)

(** Building the evidence text for one law of [related_laws] (lines
    979-984): [law.get('filename', '').replace(...)] needs a dict with a
    string file name; [len(content)] needs a sized content, and a list or
    dict content longer than 300 is sliced and concatenated with ["..."],
    which raises; [:.3f] needs a number.  [false] when the line raises. *)
Definition law_prompt_ok (law : pyval) : bool :=
  match law with
  | PDict kv =>
    let filename_ok :=
      match dget kv (u "filename") (PStr []) with PStr _ => true | _ => false end in
    let content_ok :=
      match dget kv (u "content") (PStr []) with
      | PStr _ => true
      | PList l => Nat.leb (List.length l) 300
      | PDict d => Nat.leb (List.length d) 300
      | _ => false
      end in
    let similarity_ok :=
      match dget kv (u "similarity_score") (PInt 0) with
      | PInt _ | PFloat _ | PBool _ => true
      | _ => false
      end in
    filename_ok && content_ok && similarity_ok
  | _ => false
  end.

(** [if related_laws: for ... in enumerate(related_laws, 1): ...]: [false]
    when the loop raises (a truthy non-list is iterated to one-character
    strings or keys, or is not iterable). *)
Definition laws_text_ok (related_laws : pyval) : bool :=
  if truthy related_laws then
    match related_laws with
    | PList l => forallb law_prompt_ok l
    | _ => false
    end
  else true.

(** [law.get('filename', '').replace('.pdf', '')] *)
Definition law_name (law : pyval) : option str :=
  match law with
  | PDict kv =>
    match dget kv (u "filename") (PStr []) with
    | PStr f => Some (remove_all (u ".pdf") f)
    | _ => None
    end
  | _ => None
  end.

(** [[... for law in related_laws[:2]]] of the fallback verdict. *)
Definition fallback_laws (related_laws : pyval) : option (list str) :=
  match related_laws with
  | PList l => map_opt law_name (firstn 2 l)
  | PStr [] => Some []
  | _ => None
  end.

Definition FALLBACK_OPINION : str := u "상세 분석 실패로 인해 기본 정보만 제공".

(** The verdict substituted on [json.JSONDecodeError] (lines 1047-1053). *)
Definition fallback_verdict (clause_number clause_title risk_type brief_reason : pyval)
  (laws : list str) : pyval :=
  PDict [(u "조항_위치", PStr (py_str clause_number ++ u " (" ++ py_str clause_title ++ u ")"));
         (u "리스크_유형", risk_type);
         (u "판단_근거", brief_reason);
         (u "의견", PStr FALLBACK_OPINION);
         (u "관련_법령", PList (map PStr laws))].

(** The body of the loop for one candidate; [None] is the [except
    Exception: continue] of line 1055.  [llm v] is the outcome of the model
    call on the prompt built from candidate [v]. *)
Definition chain3_one (llm : dict -> llm_outcome) (violation_data : dict) : option pyval :=
  let clause_title := dget violation_data (u "clause_title") (PStr []) in
  let clause_number := dget violation_data (u "clause_number") (PStr []) in
  let risk_type := dget violation_data (u "risk_type") (PStr []) in
  let brief_reason := dget violation_data (u "brief_reason") (PStr []) in
  let related_laws := dget violation_data (u "related_laws") (PList []) in
  if negb (laws_text_ok related_laws) then None
  else
    match llm violation_data with
    | LRaise => None
    | LText response_text =>
      match json_loads (extract_json response_text) with
      | Some detailed_analysis => Some detailed_analysis
      | None =>
        match fallback_laws related_laws with
        | Some laws => Some (fallback_verdict clause_number clause_title risk_type brief_reason laws)
        | None => None                              (* raised inside the handler *)
        end
      end
    end.

Fixpoint filter_map {A B} (f : A -> option B) (l : list A) : list B :=
  match l with
  | [] => []
  | x :: l' => match f x with Some y => y :: filter_map f l' | None => filter_map f l' end
  end.

(** The ["violations"] list of the dict returned by
    [_chain3_detailed_analysis] (the other fields are the document name,
    the count, the method name and the date). *)
Definition chain3 (llm : dict -> llm_outcome) (violations_with_laws : list dict) : list pyval :=
  match violations_with_laws with
  | [] => []
  | _ => filter_map (chain3_one llm) violations_with_laws
  end.





(** JSON text written with single quotes in place of double quotes. *)
Definition json_text (s : string) : str :=
  map (fun c => if c =? 39 then 34 else c) (u s).

(* ------------------------------------------------------------------ *)
(** ** Hybrid search ([repository.py], [search_documents_hybrid]) *)

(** A result row of [search_documents_by_vector] and
    [search_documents_by_vector_with_room_context]; the fields the hybrid
    search reads.  A float score is a (finite) rational. *)
Record row := mk_row {
  chunk_id : Z;
  similarity_score : Q;
  is_room_document : bool
}.

Inductive source_type_t := SrcSystem | SrcRoom.

(** A row after the hybrid search added ["weighted_score"] and
    ["source_type"] to it. *)
Record scored := mk_scored {
  result_row : row;
  weighted_score : Q;
  source_type : source_type_t
}.

(** The database searches the hybrid search issues. *)
Inductive search_call :=
| ByVector (query_embedding : list Q) (doc_types : list str) (top_k : Z)
| WithRoomContext (query_embedding : list Q) (room_id : Z) (doc_types : list str) (top_k : Z).

(** The outcome of an awaited call: a value, or a raised exception. *)
Inductive outcome (A : Type) := Ret (a : A) | Exc.
Arguments Ret {A} a.
Arguments Exc {A}.

(** What the hybrid search returns: the weighted merge, the plain rows of
    the fallback search, or an exception reaching the caller. *)
Inductive hybrid_result :=
| Weighted (l : list scored)
| Plain (l : list row)
| Raised.

(** Python's [l[:k]]. *)
Definition py_slice {A} (k : Z) (l : list A) : list A :=
  if (0 <=? k)%Z then firstn (Z.to_nat k) l
  else firstn (List.length l - Z.to_nat (- k)) l.

Definition DEFAULT_TOP_K : Z := 15.
Definition DEFAULT_SYSTEM_WEIGHT : Q := 6 # 10.
Definition DEFAULT_ROOM_WEIGHT : Q := 4 # 10.

Section Hybrid.

(** Float multiplication, with whatever rounding the platform does. *)
Variable fmul : Q -> Q -> Q.

Definition weigh (src : source_type_t) (w : Q) (r : row) : scored :=
  mk_scored r (fmul (similarity_score r) w) src.

(** [list.sort(key=weighted_score, reverse=True)]: a stable sort in
    descending order (elements with equal keys keep their order). *)
Fixpoint insert_desc (x : scored) (l : list scored) : list scored :=
  match l with
  | [] => [x]
  | y :: l' =>
    if Qle_bool (weighted_score y) (weighted_score x) then x :: l
    else y :: insert_desc x l'
  end.

Fixpoint sort_desc (l : list scored) : list scored :=
  match l with
  | [] => []
  | x :: l' => insert_desc x (sort_desc l')
  end.

(** [db n c] is the outcome of the [n]-th search call of the run. *)
Variable db : nat -> search_call -> outcome (list row).

(** Step 2: the room search, kept to the room's own documents. *)
Definition room_search (emb : list Q) (room_id : option Z) (doc_types : list str)
    (top_k : Z) : outcome (list row) :=
  match room_id with
  | None => Ret []
  | Some r =>
    match db 1%nat (WithRoomContext emb r doc_types top_k) with
    | Ret rows => Ret (filter is_room_document rows)
    | Exc => Exc
    end
  end.

(** The [except] branch: the global search once more, not guarded. *)
Definition hybrid_fallback (n : nat) (emb : list Q) (doc_types : list str) (top_k : Z)
    : hybrid_result :=
  match db n (ByVector emb doc_types top_k) with
  | Ret l => Plain l
  | Exc => Raised
  end.

Definition search_documents_hybrid (emb : list Q) (room_id : option Z)
    (doc_types : list str) (top_k : Z) (system_weight room_weight : Q)
    : hybrid_result :=
  match db 0%nat (ByVector emb doc_types top_k) with
  | Exc => hybrid_fallback 1 emb doc_types top_k
  | Ret system_results =>
    match room_search emb room_id doc_types top_k with
    | Exc => hybrid_fallback 2 emb doc_types top_k
    | Ret room_results =>
      let combined_results :=
        map (weigh SrcSystem system_weight) system_results ++
        map (weigh SrcRoom room_weight) room_results in
      Weighted (py_slice top_k (sort_desc combined_results))
    end
  end.

End Hybrid.

(* ------------------------------------------------------------------ *)
(** ** Hierarchical chunker ([chunking.py], [HierarchicalChunker]) *)

(** A LangChain [Document]. *)
Record document := mk_doc {
  page_content : str;
  metadata : dict
}.

(** [m.update({k1: v1, ...})]: the pairs are set in order. *)
Definition dupdate (m : dict) (kvs : list (str * pyval)) : dict :=
  fold_left (fun m kv => dset m (fst kv) (snd kv)) kvs m.

(** The settings a [RecursiveCharacterTextSplitter] was built with. *)
Definition splitter_cfg := (Z * Z)%type.

(** The attributes of a [HierarchicalChunker]; [markdown_splitter] is
    determined by [headers_to_split_on]. *)
Record chunker := mk_chunker {
  headers_to_split_on : list (str * str);
  chunk_size : Z;
  chunk_overlap : Z;
  child_splitter : splitter_cfg
}.

Definition HEADERS_TO_SPLIT_ON : list (str * str) :=
  [(u "#", u "Header 1"); (u "##", u "Header 2");
   (u "###", u "Header 3"); (u "####", u "Header 4")].

(** The result dict of [chunk_markdown] when ["success"] is [True]
    (its ["parent_child_mapping"] and ["summary"] are not read downstream
    and are left out); [None] stands for the [{"success": False}] dict. *)
Record chunking_result := mk_result {
  parent_chunks : list document;
  child_chunks : list document
}.

(** [re.match(r'^제\s*\d+\s*조', s)] *)
Definition article_head (s : str) : bool :=
  match s with
  | c :: r =>
    (c =? JE) &&
    match take_while is_re_digit (snd (take_while is_space r)) with
    | (_ :: _, r2) =>
      match snd (take_while is_space r2) with c2 :: _ => c2 =? JO | [] => false end
    | _ => false
    end
  | [] => false
  end.

(** Step 1: article lines become level-2 headers. *)
Definition preprocess (markdown_content : str) : str :=
  join [10] (map (fun line => if article_head (strip line) then u "## " ++ strip line else line)
                 (split_char 10 markdown_content)).

(** Step 3 for one parent: a ["Header 2"] of the form 제..조 is copied to
    ["Header 1"]. *)
Definition restore_header (p : document) : option document :=
  match dget (metadata p) (u "Header 2") (PStr []) with
  | PStr h =>
    Some (if negb (Nat.eqb (List.length h) 0) && starts_with [JE] h && contains [JO] h
          then mk_doc (page_content p) (dset (metadata p) (u "Header 1") (PStr h))
          else p)
  | v => if truthy v then None else Some p     (* [.startswith] of a non-string *)
  end.

Definition parent_id_of (filename : str) (parent_idx : nat) : str :=
  filename ++ u "_parent_" ++ show_nat parent_idx.

(** The literal fan-out threshold of step 4. *)
Definition PARENT_SPLIT_THRESHOLD : nat := 500.

Definition content_length_of (s : str) : pyval := PInt (Z.of_nat (List.length s)).

Fixpoint mapi_from {A B} (f : nat -> A -> B) (i : nat) (l : list A) : list B :=
  match l with
  | [] => []
  | x :: l' => f i x :: mapi_from f (S i) l'
  end.

Section Chunker.

(** The LangChain splitters: [MarkdownHeaderTextSplitter(headers).split_text],
    the [RecursiveCharacterTextSplitter] constructor (which may raise) and
    its [split_documents] on one document; [None] is a raised exception. *)
Variable split_text : list (str * str) -> str -> option (list document).
Variable make_splitter : Z -> Z -> option splitter_cfg.
Variable split_documents : splitter_cfg -> document -> option (list document).

(** [__init__] *)
Definition new_chunker : option chunker :=
  match make_splitter 500 50 with
  | Some sp => Some (mk_chunker HEADERS_TO_SPLIT_ON 500 50 sp)
  | None => None
  end.

(** [update_chunk_settings]: the new attributes, and whether the splitter
    constructor raised (after the two assignments). *)
Definition update_chunk_settings (self : chunker) (cs co : Z) : chunker * bool :=
  match make_splitter cs co with
  | Some sp => (mk_chunker (headers_to_split_on self) cs co sp, false)
  | None => (mk_chunker (headers_to_split_on self) cs co (child_splitter self), true)
  end.

(** Step 4 for the parent of index [parent_idx]: the parent with its
    metadata completed, and its children. *)
Definition fan_one (cfg : splitter_cfg) (filename : str) (parent_idx : nat) (p : document)
    : option (document * list document) :=
  let parent_id := parent_id_of filename parent_idx in
  let md := dupdate (metadata p)
              [(u "source", PStr filename); (u "chunk_type", PStr (u "parent"));
               (u "parent_id", PStr parent_id); (u "parent_index", PInt (Z.of_nat parent_idx));
               (u "content_length", content_length_of (page_content p))] in
  let parent_chunk := mk_doc (page_content p) md in
  if Nat.ltb PARENT_SPLIT_THRESHOLD (List.length (page_content p)) then
    match split_documents cfg parent_chunk with
    | None => None
    | Some child_docs =>
      Some (parent_chunk,
            mapi_from (fun child_idx c =>
              mk_doc (page_content c)
                (dupdate (metadata c)
                   [(u "source", PStr filename); (u "chunk_type", PStr (u "child"));
                    (u "parent_id", PStr parent_id);
                    (u "child_id", PStr (parent_id ++ u "_child_" ++ show_nat child_idx));
                    (u "child_index", PInt (Z.of_nat child_idx));
                    (u "content_length", content_length_of (page_content c))])) 0 child_docs)
    end
  else
    Some (mk_doc (page_content p)
            (dupdate md [(u "is_standalone", PBool true); (u "skip_child_creation", PBool true)]),
          []).

Fixpoint fan_out (cfg : splitter_cfg) (filename : str) (parent_idx : nat) (ps : list document)
    : option (list (document * list document)) :=
  match ps with
  | [] => Some []
  | p :: ps' =>
    match fan_one cfg filename parent_idx p with
    | None => None
    | Some r =>
      match fan_out cfg filename (S parent_idx) ps' with
      | None => None
      | Some rs => Some (r :: rs)
      end
    end
  end.

(** [chunk_markdown]; every exception is caught by its [except]. *)
Definition chunk_markdown (self : chunker) (markdown_content filename : str)
    : option chunking_result :=
  match split_text (headers_to_split_on self) (preprocess markdown_content) with
  | None => None
  | Some parents0 =>
    match map_opt restore_header parents0 with
    | None => None
    | Some parents =>
      match fan_out (child_splitter self) filename 0 parents with
      | None => None
      | Some rs => Some (mk_result (map fst rs) (List.concat (map snd rs)))
      end
    end
  end.

End Chunker.

Definition headers_of (md : dict) : pyval :=
  PDict [(u "header_1", dget md (u "Header 1") (PStr []));
         (u "header_2", dget md (u "Header 2") (PStr []));
         (u "header_3", dget md (u "Header 3") (PStr []));
         (u "header_4", dget md (u "Header 4") (PStr []))].

Definition parent_data (p : document) : dict :=
  let md := metadata p in
  let parent_id := dget md (u "parent_id") PNone in
  let is_standalone := dget md (u "is_standalone") (PBool false) in
  dupdate
    [(u "content", PStr (page_content p)); (u "metadata", PDict md);
     (u "chunk_id", parent_id); (u "parent_id", parent_id); (u "child_id", parent_id);
     (u "chunk_type", PStr (u "parent")); (u "headers", headers_of md);
     (u "source_file", dget md (u "source") (PStr []));
     (u "content_length", content_length_of (page_content p));
     (u "is_standalone", is_standalone)]
    [(u "embedding", PNone); (u "embedding_success", PBool false);
     (u "is_for_embedding", PBool (truthy is_standalone))].

Definition child_data (c : document) : dict :=
  let md := metadata c in
  let child_id := dget md (u "child_id") PNone in
  [(u "content", PStr (page_content c)); (u "metadata", PDict md);
   (u "chunk_id", child_id); (u "parent_id", dget md (u "parent_id") PNone);
   (u "child_id", child_id); (u "chunk_type", PStr (u "child"));
   (u "headers", headers_of md); (u "source_file", dget md (u "source") (PStr []));
   (u "content_length", content_length_of (page_content c));
   (u "is_for_embedding", PBool true)].

(** [create_vector_ready_chunks]: parents first, then children. *)
Definition create_vector_ready_chunks (r : option chunking_result) : list dict :=
  match r with
  | None => []
  | Some r => map parent_data (parent_chunks r) ++ map child_data (child_chunks r)
  end.

(** A vector-ready chunk that is a child of the parent with id [pid]. *)
Definition is_child_of (pid : pyval) (v : dict) : bool :=
  match dget v (u "chunk_type") PNone, dget v (u "parent_id") PNone, pid with
  | PStr t, PStr a, PStr b => str_eqb t (u "child") && str_eqb a b
  | _, _, _ => false
  end.

(** [s] has a character that is not whitespace. *)
Definition has_text (s : str) : bool := existsb (fun c => negb (is_space c)) s.

(** Splitters used to exercise the chunker: one header section holding the
    whole text, and a child splitter returning its input. *)
Definition example_split_text (hs : list (str * str)) (s : str) : option (list document) :=
  Some (if has_text s then [mk_doc s []] else []).

Definition example_split_documents (cfg : splitter_cfg) (d : document) : option (list document) :=
  Some [d].

Definition example_chunker : chunker := mk_chunker HEADERS_TO_SPLIT_ON 500 50 (500%Z, 50%Z).

(** A header line of [MarkdownHeaderTextSplitter]: the stripped line starts
    with one of the separators, followed by a space or by nothing. *)
Definition md_header_line (hs : list (str * str)) (line : str) : bool :=
  let l := strip line in
  existsb (fun h => starts_with (fst h) l &&
                    (Nat.eqb (List.length l) (List.length (fst h)) ||
                     N.eqb (nth (List.length (fst h)) l 0) 32)) hs.

(** A header splitter that, like [MarkdownHeaderTextSplitter] (which drops
    header lines and emits no section without content), yields no section
    when every line is blank or a header line; otherwise one section. *)
Definition example_header_split_text (hs : list (str * str)) (s : str) : option (list document) :=
  Some (if forallb (fun line => negb (has_text line) || md_header_line hs line) (split_char 10 s)
        then [] else [mk_doc s []]).

(* ------------------------------------------------------------------ *)
(** ** Image OCR integration ([chunking.py], [integrate_image_ocr]) *)

(** [s.replace(old, new, 1)] *)
Fixpoint replace_first (old new s : str) : str :=
  if starts_with old s then new ++ skipn (List.length old) s
  else match s with
       | [] => []
       | c :: r => c :: replace_first old new r
       end.

Definition IMAGE_PLACEHOLDER : str := u "<!-- image -->".

(** [image_info.get("ocr_text") and image_info.get("is_info_rich")] *)
Definition ocr_eligible (image_info : dict) : bool :=
  truthy (dget image_info (u "ocr_text") PNone) && truthy (dget image_info (u "is_info_rich") PNone).

(** [f"\n### 이미지 {image_info['image_index']} 내용\n{ocr_text}\n"] *)
Definition ocr_block (image_index ocr_text : pyval) : str :=
  [10] ++ u "### 이미지 " ++ py_str image_index ++ u " 내용" ++ [10] ++ py_str ocr_text ++ [10].

(** [integrate_image_ocr]; [None] is the [KeyError] of an eligible image
    without ["image_index"], which is not caught. *)
Definition integrate_image_ocr (markdown_content : str) (images_data : list dict) : option str :=
  fold_left (fun acc image_info =>
               match acc with
               | None => None
               | Some enhanced_markdown =>
                 if ocr_eligible image_info then
                   if dmem image_info (u "image_index") then
                     Some (replace_first IMAGE_PLACEHOLDER
                             (ocr_block (dget image_info (u "image_index") PNone)
                                        (dget image_info (u "ocr_text") PNone))
                             enhanced_markdown)
                   else None
                 else Some enhanced_markdown
               end)
            images_data (Some markdown_content).

(* ------------------------------------------------------------------ *)
(** ** Section splitter ([rag_pipeline.py], [_create_manual_sections];
    [_split_contract_into_sections] has the same loop and fallback) *)

(** [s.lstrip(c)] for one character *)
Fixpoint lstrip_char (c : char) (s : str) : str :=
  match s with
  | x :: r => if x =? c then lstrip_char c r else s
  | [] => []
  end.

(** The prefixes ['1.'] ... ['9.'] *)
Definition numbered_item (line : str) : bool :=
  existsb (fun d => starts_with [d; 46] line) [49; 50; 51; 52; 53; 54; 55; 56; 57].

(** The header text a (stripped, non-empty) line opens a section with, if
    it opens one. *)
Definition section_header (line current_content : str) : option str :=
  if starts_with [35] line then Some (strip (lstrip_char 35 line))
  else if article_head line then Some line
  else if starts_with (u "Article") line || starts_with (u "ARTICLE") line then Some line
  else if numbered_item line then
    if Nat.ltb 10 (List.length line) && Nat.eqb (List.length current_content) 0
    then Some line else None
  else None.

(** The [for line in lines] loop: the sections closed so far and the
    current section (header, content). *)
Fixpoint scan_lines (lines : list str) (sections : list (str * str)) (cur : str * str)
    : list (str * str) * (str * str) :=
  match lines with
  | [] => (sections, cur)
  | line0 :: rest =>
    let line := strip line0 in
    match line with
    | [] => scan_lines rest sections cur
    | _ =>
      match section_header line (snd cur) with
      | Some header_text =>
        let sections' := if has_text (snd cur) then sections ++ [cur] else sections in
        scan_lines rest sections' (header_text, [])
      | None =>
        let content := match snd cur with
                       | [] => line
                       | c => c ++ [10] ++ line
                       end in
        scan_lines rest sections (fst cur, content)
      end
    end
  end.

(** The sections of the line loop, with the last one. *)
Definition header_sections (markdown_content : str) : list (str * str) :=
  let '(sections, cur) := scan_lines (split_char 10 markdown_content) [] (u "서문", []) in
  if has_text (snd cur) then sections ++ [cur] else sections.

Definition section_dict (header_1 content : str) : dict :=
  [(u "header_1", PStr header_1); (u "content", PStr content);
   (u "chunk_type", PStr (u "parent"))].

(** [[p.strip() for p in markdown_content.split('\n\n') if p.strip()]] *)
Definition paragraphs_of (markdown_content : str) : list str :=
  map strip (filter has_text (split_on [10; 10] markdown_content)).

(** The fallback: [for i, paragraph in enumerate(paragraphs[:10], 1)]. *)
Definition paragraph_sections (markdown_content : str) : list dict :=
  filter_map (fun ip : nat * str =>
                if Nat.ltb 50 (List.length (snd ip))
                then Some (section_dict (u "조항 " ++ show_nat (fst ip)) (snd ip))
                else None)
             (mapi_from pair 1 (firstn 10 (paragraphs_of markdown_content))).

(** [_create_manual_sections]; a non-string ["markdown_content"] is either
    falsy (an early [return []]) or makes [.split] raise (caught, [[]]). *)
Definition create_manual_sections (doc_parser_result : dict) : list dict :=
  match dget doc_parser_result (u "markdown_content") (PStr []) with
  | PStr [] => []
  | PStr markdown_content =>
    match header_sections markdown_content with
    | [] => paragraph_sections markdown_content
    | sections => map (fun hc => section_dict (fst hc) (snd hc)) sections
    end
  | _ => []
  end.

(* ------------------------------------------------------------------ *)
(** ** Contract splitter ([rag_pipeline.py], [_split_contract_into_sections]) *)

(** The dict [{"header_1": h, "content": c}] the loop starts with. *)
Definition open_section (header_1 content : str) : dict :=
  [(u "header_1", PStr header_1); (u "content", PStr content)].

(** [current_section["content"]] (always a string in the loop). *)
Definition section_content (d : dict) : str :=
  match dget d (u "content") PNone with PStr c => c | _ => [] end.

(** The [for line in lines] loop, on the [current_section] dict itself:
    a closed section gets ["chunk_type"] set before it is appended. *)
Fixpoint scan_contract_lines (lines : list str) (sections : list dict) (current_section : dict)
    : list dict * dict :=
  match lines with
  | [] => (sections, current_section)
  | line0 :: rest =>
    let line := strip line0 in
    match line with
    | [] => scan_contract_lines rest sections current_section
    | _ =>
      let content := section_content current_section in
      match section_header line content with
      | Some header_text =>
        let sections' :=
          if has_text content
          then sections ++ [dset current_section (u "chunk_type") (PStr (u "parent"))]
          else sections in
        scan_contract_lines rest sections' (section_dict header_text [])
      | None =>
        let content' := match content with
                        | [] => line
                        | c => c ++ [10] ++ line
                        end in
        scan_contract_lines rest sections (dset current_section (u "content") (PStr content'))
      end
    end
  end.

(** [_split_contract_into_sections]: the last section is appended as it
    is, without setting ["chunk_type"]. *)
Definition split_contract_into_sections (markdown_content : str) : list dict :=
  let '(sections, current_section) :=
    scan_contract_lines (split_char 10 markdown_content) [] (open_section (u "서문") []) in
  let sections := if has_text (section_content current_section)
                  then sections ++ [current_section] else sections in
  match sections with
  | [] => paragraph_sections markdown_content
  | _ => sections
  end.

(* ------------------------------------------------------------------ *)
(** ** Embedding service ([embedding_service.py], [embed_chunked_documents]) *)

Record embedding_config := mk_embedding_config {
  model_id : str;
  normalize : bool
}.

(** The outcome of [create_batch_embeddings]: one vector per text, or the
    message of the exception it raised. *)
Inductive batch_outcome :=
| BatchOk (embeddings : list (list pyval))
| BatchErr (message : str).

(** [type(v).__name__] *)
Definition type_name (v : pyval) : str :=
  match v with
  | PNone => u "NoneType" | PBool _ => u "bool" | PInt _ => u "int"
  | PFloat _ => u "float" | PStr _ => u "str" | PList _ => u "list" | PDict _ => u "dict"
  end.

(** [[(i, text) for i, text in enumerate(texts) if text.strip()]] from
    index [i]; [inl] carries the message of the [AttributeError] raised by
    [.strip()] on a non-string. *)
Fixpoint valid_texts_from (i : nat) (texts : list pyval) : str + list (nat * str) :=
  match texts with
  | [] => inr []
  | PStr s :: rest =>
    match valid_texts_from (S i) rest with
    | inl m => inl m
    | inr l => inr (if has_text s then (i, s) :: l else l)
    end
  | v :: _ => inl (u "'" ++ type_name v ++ u "' object has no attribute 'strip'")
  end.

(** Python's [l[i] = x] (the indices used below are always in range). *)
Fixpoint list_set {A} (l : list A) (i : nat) (x : A) : list A :=
  match l, i with
  | [], _ => []
  | _ :: l', O => x :: l'
  | y :: l', S i' => y :: list_set l' i' x
  end.

Definition non_embedding_doc (cfg : embedding_config) (doc : dict) : dict :=
  dset (dset (dset doc (u "embedding") PNone) (u "embedding_success") (PBool false))
    (u "embedding_metadata")
    (PDict [(u "model_id", PStr (model_id cfg));
            (u "reason", PStr (u "Parent chunk - 임베딩 불필요"));
            (u "chunk_type", dget doc (u "chunk_type") (PStr (u "unknown")))]).

Definition embedded_doc (cfg : embedding_config) (doc : dict) (e : list pyval) : dict :=
  dset (dset (dset doc (u "embedding") (PList e)) (u "embedding_success") (PBool true))
    (u "embedding_metadata")
    (PDict [(u "model_id", PStr (model_id cfg));
            (u "dimensions", PInt (Z.of_nat (List.length e)));
            (u "normalized", PBool (normalize cfg));
            (u "chunk_type", dget doc (u "chunk_type") (PStr (u "child")))]).

Definition failed_doc (doc : dict) : dict :=
  dset (dset (dset doc (u "embedding") PNone) (u "embedding_success") (PBool false))
    (u "embedding_error") (PStr (u "빈 텍스트 또는 처리 실패")).

(** The merge loop over [enumerate(embedding_targets)]. *)
Fixpoint merge_targets (cfg : embedding_config) (valid_indices : list nat)
    (embeddings : list (list pyval)) (targets : list (nat * (nat * dict)))
    (enhanced_documents : list (option dict)) (embedding_index : nat) : list (option dict) :=
  match targets with
  | [] => enhanced_documents
  | (target_idx, (original_idx, doc)) :: rest =>
    if existsb (Nat.eqb target_idx) valid_indices && Nat.ltb embedding_index (List.length embeddings)
    then merge_targets cfg valid_indices embeddings rest
           (list_set enhanced_documents original_idx
              (Some (embedded_doc cfg doc (nth embedding_index embeddings []))))
           (S embedding_index)
    else merge_targets cfg valid_indices embeddings rest
           (list_set enhanced_documents original_idx (Some (failed_doc doc)))
           embedding_index
  end.

(** The [except] branch. *)
Definition except_docs (message : str) (docs : list dict) : list dict :=
  map (fun doc => dupdate doc [(u "embedding", PNone); (u "embedding_success", PBool false);
                              (u "embedding_error", PStr message)]) docs.

Definition is_embedding_target (doc : dict) : bool :=
  truthy (dget doc (u "is_for_embedding") (PBool true)).

(** The body of [embed_chunked_documents] after [if not chunked_documents]:
    the returned list, and the lists of texts passed to
    [create_batch_embeddings]. *)
Definition embed_nonempty (cfg : embedding_config)
    (create_batch_embeddings : list str -> batch_outcome)
    (chunked_documents : list dict) (content_key : str) : list dict * list (list str) :=
    let indexed := mapi_from pair 0 chunked_documents in
    let embedding_targets := filter (fun p => is_embedding_target (snd p)) indexed in
    let non_embedding_chunks :=
      map (fun p => (fst p, non_embedding_doc cfg (snd p)))
          (filter (fun p => negb (is_embedding_target (snd p))) indexed) in
    match embedding_targets with
    | [] => (map snd non_embedding_chunks, [])
    | _ =>
      let texts := map (fun p => dget (snd p) content_key (PStr [])) embedding_targets in
      match valid_texts_from 0 texts with
      | inl message => (except_docs message chunked_documents, [])
      | inr [] => (chunked_documents, [])
      | inr valid_texts =>
        let valid_indices := map fst valid_texts in
        let valid_text_list := map snd valid_texts in
        match create_batch_embeddings valid_text_list with
        | BatchErr message => (except_docs message chunked_documents, [valid_text_list])
        | BatchOk embeddings =>
          let enhanced := merge_targets cfg valid_indices embeddings
                            (mapi_from pair 0 embedding_targets)
                            (repeat None (List.length chunked_documents)) 0 in
          let enhanced' := fold_left (fun acc p => list_set acc (fst p) (Some (snd p)))
                             non_embedding_chunks enhanced in
          (filter_map (fun o => o) enhanced', [valid_text_list])
        end
      end
    end.

Definition embed_chunked_documents (cfg : embedding_config)
    (create_batch_embeddings : list str -> batch_outcome)
    (chunked_documents : list dict) (content_key : str) : list dict * list (list str) :=
  match chunked_documents with
  | [] => ([], [])
  | _ => embed_nonempty cfg create_batch_embeddings chunked_documents content_key
  end.

Definition EMBEDDING_KEYS : list str :=
  [u "embedding"; u "embedding_success"; u "embedding_metadata"; u "embedding_error"].

(** Relating the output of [embed_chunked_documents] to its input. *)
(** [d] is [doc] with at most the embedding keys changed. *)
Definition enh_of (doc d : dict) : Prop :=
  forall k def, ~ In k EMBEDDING_KEYS -> dget d k def = dget doc k def.

(** Position [j] of the list [enhanced_documents] has been assigned. *)
Definition filled (acc : list (option dict)) (j : nat) : Prop :=
  exists d, nth_error acc j = Some (Some d).

Definition good (docs : list dict) (acc : list (option dict)) : Prop :=
  List.length acc = List.length docs /\
  forall j d, nth_error acc j = Some (Some d) -> enh_of (nth j docs []) d.

(** [out] corresponds position by position to [docs]. *)
Definition positional (docs out : list dict) : Prop :=
  List.length out = List.length docs /\
  forall j d, nth_error out j = Some d -> enh_of (nth j docs []) d.

(** Inputs used to exercise [embed_chunked_documents]. *)
Definition example_embedding_config : embedding_config :=
  mk_embedding_config (u "amazon.titan-embed-text-v2:0") true.

(** A batch call that returns one (empty) vector per text. *)
Definition example_batch (texts : list str) : batch_outcome :=
  BatchOk (map (fun _ => []) texts).

(** A parent chunk flagged out of embedding, then a chunk without the flag. *)
Definition example_embed_docs : list dict :=
  [[(u "content", PStr (u "parent text")); (u "is_for_embedding", PBool false)];
   [(u "content", PStr (u "child text"))]].

(** What [embed_chunked_documents] makes of one chunk when the batch call
    returns the vector [f text] for every text: the three branches of its
    merge loop. *)
Definition content_str (ck : str) (doc : dict) : option str :=
  match dget doc ck (PStr []) with
  | PStr s => Some s
  | _ => None
  end.

Definition embedded_or_failed (cfg : embedding_config) (f : str -> list pyval) (ck : str)
    (doc : dict) : dict :=
  match content_str ck doc with
  | Some s => if has_text s then embedded_doc cfg doc (f s) else failed_doc doc
  | None => failed_doc doc
  end.

Definition expected_embedding (cfg : embedding_config) (f : str -> list pyval) (ck : str)
    (doc : dict) : dict :=
  if is_embedding_target doc then embedded_or_failed cfg f ck doc else non_embedding_doc cfg doc.

(** The texts sent to the batch call: the non-blank contents of the
    targets, in order. *)
Definition target_texts (ck : str) (docs : list dict) : list str :=
  filter has_text (filter_map (content_str ck) (filter is_embedding_target docs)).

(** [get_parent_context] ([chunking.py]): the child whose ["child_id"]
    equals the given id (the first one), then the first parent whose
    ["parent_id"] equals that child's ["parent_id"]. *)
Section ParentContext.

(** Python's [==] between two values (only its result on two strings is
    relied on below). *)
Variable py_eq : pyval -> pyval -> bool.

Definition get_parent_context (chunking_result : option chunking_result) (child_chunk_id : str)
    : option str :=
  match chunking_result with
  | None => None
  | Some r =>
    let parent_id :=
      match find (fun c => py_eq (dget (metadata c) (u "child_id") PNone) (PStr child_chunk_id))
                 (child_chunks r) with
      | Some c => dget (metadata c) (u "parent_id") PNone
      | None => PNone
      end in
    if negb (truthy parent_id) then None
    else
      match find (fun p => py_eq (dget (metadata p) (u "parent_id") PNone) parent_id)
                 (parent_chunks r) with
      | Some p => Some (page_content p)
      | None => None
      end
  end.

End ParentContext.

(** [==] on two strings, and [False] otherwise (a model of [==] for the
    values the chunker stores as ids). *)
Definition str_ids_eq (a b : pyval) : bool :=
  match a, b with
  | PStr x, PStr y => str_eqb x y
  | _, _ => false
  end.

(** A text longer than the 500-character threshold. *)
Definition example_long_text : str := repeat 97 501.

(* ================================================================== *)
(** * Properties *)

Example u_clause : u "제3조" = [JE; 51; JO].
Proof. reflexivity. Qed.

Example show_nat_12 : show_nat 12 = u "12".
Proof. reflexivity. Qed.

Example json_loads_1 :
  json_loads (json_text " {'a': [1, -2.5e3, 'xé'], 'a': null, 'b': {}} ") =
  Some (PDict [(u "a", PNone); (u "b", PDict [])]).
Proof. reflexivity. Qed.

Example chain1_fenced :
  chain1_parse (json_text "Here:
```json
{'violations': [{'clause_number': '제12조'}, {'clause_number': 'x'}]}
```") =
  PList [PDict [(u "clause_number", PStr (u "제12조")); (u "chunk_index", PInt 11)];
         PDict [(u "clause_number", PStr (u "x")); (u "chunk_index", PInt 0)]].
Proof. vm_compute. reflexivity. Qed.

Example chain3_fallback :
  chain3 (fun _ => LText (u "sorry"))
    [[(u "clause_number", PStr (u "제1조")); (u "clause_title", PStr (u "T"));
      (u "related_laws", PList [PDict [(u "filename", PStr (u "a.pdf"))];
                                PDict [(u "filename", PStr (u "b.pdf"))];
                                PDict [(u "filename", PStr (u "c.pdf"))]])]] =
  [fallback_verdict (PStr (u "제1조")) (PStr (u "T")) (PStr []) (PStr [])
     [u "a"; u "b"]].
Proof. vm_compute. reflexivity. Qed.

(* ------------------------------------------------------------------ *)
(** ** Dict lemmas *)

Lemma str_eqb_eq : forall a b, str_eqb a b = true <-> a = b.
Proof.
  induction a as [|x a IH]; destruct b as [|y b]; simpl; split; intro H;
    try congruence.
  - apply andb_prop in H as [H1 H2]. apply N.eqb_eq in H1. apply IH in H2. congruence.
  - injection H as -> ->. apply andb_true_intro. split; [apply N.eqb_refl | apply IH; reflexivity].
Qed.

Lemma str_eqb_refl : forall a, str_eqb a a = true.
Proof. intro a. apply str_eqb_eq. reflexivity. Qed.

Lemma str_eqb_neq : forall a b, a <> b -> str_eqb a b = false.
Proof.
  intros a b H. destruct (str_eqb a b) eqn:E; [apply str_eqb_eq in E; contradiction | reflexivity].
Qed.

Lemma dget_dset_eq : forall d k v def, dget (dset d k v) k def = v.
Proof.
  induction d as [|[k' v'] d IH]; intros k v def; simpl.
  - rewrite str_eqb_refl. reflexivity.
  - destruct (str_eqb k k') eqn:E; simpl.
    + apply str_eqb_eq in E. subst. rewrite str_eqb_refl. reflexivity.
    + rewrite E. apply IH.
Qed.

Lemma dget_dset_neq : forall d k k' v def, k' <> k -> dget (dset d k v) k' def = dget d k' def.
Proof.
  induction d as [|[k0 v0] d IH]; intros k k' v def Hne; simpl.
  - rewrite (str_eqb_neq k' k Hne). reflexivity.
  - destruct (str_eqb k k0) eqn:E; simpl.
    + apply str_eqb_eq in E. subst k0. rewrite (str_eqb_neq k' k Hne). reflexivity.
    + destruct (str_eqb k' k0); [reflexivity | apply IH; assumption].
Qed.

Lemma related_laws_neq_laws_found : u "laws_found" <> u "related_laws".
Proof. vm_compute. congruence. Qed.

(** The dict a stage-2 task returns for one candidate. *)
Lemma search_laws_for_violation_fields : forall v laws,
  let r := search_laws_for_violation v (Some laws) in
  dget r (u "related_laws") (PList []) = PList laws /\
  dget r (u "laws_found") (PInt 0) = PInt (Z.of_nat (List.length laws)) /\
  (forall k, k <> u "related_laws" -> k <> u "laws_found" -> forall d, dget r k d = dget v k d).
Proof.
  intros v laws r. subst r. unfold search_laws_for_violation. simpl.
  split; [|split].
  - rewrite dget_dset_neq by (intro H; symmetry in H; apply related_laws_neq_laws_found; exact H).
    apply dget_dset_eq.
  - apply dget_dset_eq.
  - intros k H1 H2 d. rewrite dget_dset_neq by exact H2. rewrite dget_dset_neq by exact H1.
    reflexivity.
Qed.

(* ------------------------------------------------------------------ *)
(** ** Stage 2 *)

(** ** C8.  Stage 2 returns every candidate, in order, augmented with a
    [related_laws] list and [laws_found] equal to its length; a candidate
    whose law search fails gets [[]] and [0]; what a candidate gets depends
    only on its own search, so one failure does not change any other
    candidate's evidence. *)
Theorem chain2_augments_every_candidate : forall db candidates,
  List.length (chain2 db candidates) = List.length candidates /\
  forall i v, nth_error candidates i = Some v ->
    exists r, nth_error (chain2 db candidates) i = Some r /\
      (let laws := search_documents_direct db (search_query v) in
       dget r (u "related_laws") (PList []) = PList laws /\
       dget r (u "laws_found") (PInt 0) = PInt (Z.of_nat (List.length laws))) /\
      (forall k, k <> u "related_laws" -> k <> u "laws_found" ->
         forall d, dget r k d = dget v k d) /\
      (db (search_query v) = None ->
         dget r (u "related_laws") (PList []) = PList [] /\
         dget r (u "laws_found") (PInt 0) = PInt 0) /\
      (forall db', db' (search_query v) = db (search_query v) ->
         nth_error (chain2 db' candidates) i = Some r).
Proof.
  intros db candidates. split.
  - unfold chain2. apply length_map.
  - intros i v Hi.
    exists (search_laws_for_violation v (Some (search_documents_direct db (search_query v)))).
    destruct (search_laws_for_violation_fields v (search_documents_direct db (search_query v)))
      as [H1 [H2 H3]].
    split; [|split; [|split; [|split]]].
    + unfold chain2. rewrite nth_error_map, Hi. reflexivity.
    + cbv zeta. split; assumption.
    + exact H3.
    + intro Hnone. unfold search_documents_direct in *. rewrite Hnone in *. simpl in H1, H2.
      split; assumption.
    + intros db' Hdb. unfold chain2. rewrite nth_error_map, Hi. simpl.
      unfold search_documents_direct. rewrite Hdb. reflexivity.
Qed.

Lemma chain2_augments_every_candidate_witness :
  exists r, nth_error (chain2 (fun _ => None) [[(u "clause_title", PStr (u "t"))]]) 0%nat = Some r /\
    dget r (u "related_laws") (PList []) = PList [] /\ dget r (u "laws_found") (PInt 0) = PInt 0.
Proof.
  destruct (proj2 (chain2_augments_every_candidate (fun _ => None) [[(u "clause_title", PStr (u "t"))]])
              0%nat [(u "clause_title", PStr (u "t"))] eq_refl) as [r [H1 [_ [_ [H4 _]]]]].
  exists r. split; [exact H1 | apply H4; reflexivity].
Defined.

(* ------------------------------------------------------------------ *)
(** ** JSON extraction *)







Lemma is_space_brace_close : is_space 125 = false. Proof. reflexivity. Qed.







Lemma starts_with_app : forall p s, starts_with p (p ++ s) = true.
Proof. induction p as [|c p IH]; intro s; cbn; [reflexivity | rewrite N.eqb_refl; apply IH]. Qed.



(* ------------------------------------------------------------------ *)
(** ** Stage 3 on stage-2 candidates *)








(* ------------------------------------------------------------------ *)
(** ** Claims on the chain stages *)




(** A backtick inside the object defeats the extraction: the fence pattern
    matches inside the string value of a whole-response object, and the
    extracted [{x}] does not parse. *)
Lemma chain1_fence_inside_object :
  let obj := json_text "{'a': '```json {x} ```'}" in
  json_loads obj = Some (PDict [(u "a", PStr (u "```json {x} ```"))]) /\
  extract_json obj = u "{x}" /\
  chain1 (LText obj) = PList [].
Proof. vm_compute. split; [reflexivity | split; reflexivity]. Qed.




(** ** C5 (code bug).  A candidate whose [clause_number] is not a string
    makes [re.search] raise inside the locator loop; the [except] of stage 1
    then returns [[]] and every candidate, including the well-formed
    ["제3조"] one, is dropped. *)
Lemma chain1_non_string_locator_drops_all :
  let resp := json_text "{'violations': [{'clause_number': '제3조'}, {'clause_number': 3}]}" in
  json_loads resp =
    Some (PDict [(u "violations",
                  PList [PDict [(u "clause_number", PStr (u "제3조"))];
                         PDict [(u "clause_number", PInt 3)]])]) /\
  chain1 (LText resp) = PList [].
Proof. vm_compute. split; reflexivity. Qed.

(* ------------------------------------------------------------------ *)
(** ** Hybrid search *)

Definition ws_desc (a b : scored) : Prop := (weighted_score b <= weighted_score a)%Q.

Lemma insert_desc_perm : forall x l, Permutation (x :: l) (insert_desc x l).
Proof.
  intros x l. induction l as [|y l IH]; simpl; [reflexivity|].
  destruct (Qle_bool (weighted_score y) (weighted_score x)); [reflexivity|].
  rewrite perm_swap. constructor. exact IH.
Qed.

Lemma sort_desc_perm : forall l, Permutation l (sort_desc l).
Proof.
  induction l as [|x l IH]; simpl; [reflexivity|].
  rewrite <- insert_desc_perm. constructor. exact IH.
Qed.

Lemma Qle_bool_false_lt : forall a b, Qle_bool a b = false -> (b < a)%Q.
Proof.
  intros a b H. apply Qnot_le_lt. intro Hle. apply Qle_bool_iff in Hle. congruence.
Qed.

Lemma insert_desc_hdrel : forall a x l,
  HdRel ws_desc a l -> ws_desc a x -> HdRel ws_desc a (insert_desc x l).
Proof.
  intros a x [|y l] Hh Hx; simpl; [constructor; exact Hx|].
  destruct (Qle_bool (weighted_score y) (weighted_score x)); constructor; [exact Hx|].
  inversion Hh; assumption.
Qed.

Lemma insert_desc_sorted : forall x l, Sorted ws_desc l -> Sorted ws_desc (insert_desc x l).
Proof.
  intros x l Hs. induction Hs as [|y l Hs IH Hh]; simpl.
  - repeat constructor.
  - destruct (Qle_bool (weighted_score y) (weighted_score x)) eqn:E.
    + constructor; [constructor; assumption|].
      constructor. apply Qle_bool_iff. exact E.
    + constructor; [exact IH|]. apply insert_desc_hdrel; [exact Hh|].
      unfold ws_desc. apply Qlt_le_weak. apply Qle_bool_false_lt. exact E.
Qed.

Lemma sort_desc_sorted : forall l, Sorted ws_desc (sort_desc l).
Proof.
  induction l as [|x l IH]; simpl; [constructor|]. apply insert_desc_sorted. exact IH.
Qed.

Lemma insert_desc_filter_eq : forall v x l,
  filter (fun s => Qeq_bool (weighted_score s) v) (insert_desc x l) =
  filter (fun s => Qeq_bool (weighted_score s) v) (x :: l).
Proof.
  intros v x l. induction l as [|y l IH]; simpl; [reflexivity|].
  destruct (Qle_bool (weighted_score y) (weighted_score x)) eqn:E; [reflexivity|].
  apply Qle_bool_false_lt in E. simpl in IH. simpl. rewrite IH.
  destruct (Qeq_bool (weighted_score x) v) eqn:Ex; [|reflexivity].
  destruct (Qeq_bool (weighted_score y) v) eqn:Ey; [|reflexivity].
  exfalso. apply Qeq_bool_iff in Ex, Ey. rewrite Ex, Ey in E. apply (Qlt_irrefl v). exact E.
Qed.

Lemma sort_desc_filter_eq : forall v l,
  filter (fun s => Qeq_bool (weighted_score s) v) (sort_desc l) =
  filter (fun s => Qeq_bool (weighted_score s) v) l.
Proof.
  intros v. induction l as [|x l IH]; simpl; [reflexivity|].
  rewrite insert_desc_filter_eq. simpl. rewrite IH. reflexivity.
Qed.

(** ** C1 (amended).  When the global search and the room search both
    return, the hybrid search returns the first [top_k] elements of a list
    that holds exactly the global rows weighted by [system_weight] and the
    room's own rows weighted by [room_weight], sorted by weighted score in
    descending order; rows with equal weighted scores keep the order of the
    concatenation (global rows first, then room rows, each as returned). *)
Theorem search_documents_hybrid_stable_merge :
  forall fmul db emb room_id doc_types top_k system_weight room_weight
         system_results room_results,
  db 0%nat (ByVector emb doc_types top_k) = Ret system_results ->
  room_search db emb room_id doc_types top_k = Ret room_results ->
  let combined := map (weigh fmul SrcSystem system_weight) system_results ++
                  map (weigh fmul SrcRoom room_weight) room_results in
  exists merged,
    search_documents_hybrid fmul db emb room_id doc_types top_k system_weight room_weight
      = Weighted (py_slice top_k merged) /\
    Permutation combined merged /\
    Sorted (fun a b => weighted_score b <= weighted_score a)%Q merged /\
    (forall v, filter (fun s => Qeq_bool (weighted_score s) v) merged =
               filter (fun s => Qeq_bool (weighted_score s) v) combined).
Proof.
  intros fmul db emb room_id doc_types top_k sw rw sys room Hs Hr combined.
  exists (sort_desc combined). split; [|split; [|split]].
  - unfold search_documents_hybrid. rewrite Hs, Hr. reflexivity.
  - apply sort_desc_perm.
  - apply sort_desc_sorted.
  - intro v. apply sort_desc_filter_eq.
Qed.

Lemma search_documents_hybrid_stable_merge_witness :
  exists merged,
    search_documents_hybrid Qmult
      (fun _ c => match c with
                  | ByVector _ _ _ => Ret [mk_row 1 (1#2) false]
                  | WithRoomContext _ _ _ _ => Ret [mk_row 2 (9#10) true; mk_row 3 (1#4) false]
                  end) [] (Some 7%Z) [] DEFAULT_TOP_K DEFAULT_SYSTEM_WEIGHT DEFAULT_ROOM_WEIGHT
      = Weighted (py_slice DEFAULT_TOP_K merged) /\
    Permutation [weigh Qmult SrcSystem DEFAULT_SYSTEM_WEIGHT (mk_row 1 (1#2) false);
                 weigh Qmult SrcRoom DEFAULT_ROOM_WEIGHT (mk_row 2 (9#10) true)] merged.
Proof.
  destruct (search_documents_hybrid_stable_merge Qmult
      (fun _ c => match c with
                  | ByVector _ _ _ => Ret [mk_row 1 (1#2) false]
                  | WithRoomContext _ _ _ _ => Ret [mk_row 2 (9#10) true; mk_row 3 (1#4) false]
                  end) [] (Some 7%Z) [] DEFAULT_TOP_K DEFAULT_SYSTEM_WEIGHT DEFAULT_ROOM_WEIGHT
      [mk_row 1 (1#2) false] [mk_row 2 (9#10) true] eq_refl eq_refl)
    as [merged [H1 [H2 _]]].
  exists merged. split; [exact H1 | exact H2].
Defined.

(** C1 fails as stated: with the default weights a global row of
    similarity 0.2 and a room row of similarity 0.3 both weigh 0.12 (also
    in binary floating point), and the global row comes first although its
    unweighted similarity is lower. *)
Lemma hybrid_tie_keeps_global_row_first :
  let g := mk_row 1 (2#10) false in
  let r := mk_row 2 (3#10) true in
  search_documents_hybrid Qmult
    (fun _ c => match c with
                | ByVector _ _ _ => Ret [g]
                | WithRoomContext _ _ _ _ => Ret [r]
                end) [] (Some 7%Z) [] DEFAULT_TOP_K DEFAULT_SYSTEM_WEIGHT DEFAULT_ROOM_WEIGHT
  = Weighted [mk_scored g (12#100) SrcSystem; mk_scored r (12#100) SrcRoom] /\
  (similarity_score g < similarity_score r)%Q.
Proof. split; [reflexivity | vm_compute; reflexivity]. Qed.

(** ** C7 (amended).  If the global search raises, or the room search
    raises, the hybrid search returns the outcome of one more global-only
    search with the same query embedding, doc-type filter and [top_k]: its
    rows when it returns, its exception (reaching the caller) when it
    raises. *)
Theorem search_documents_hybrid_fallback :
  forall fmul db emb room_id doc_types top_k system_weight room_weight,
  (db 0%nat (ByVector emb doc_types top_k) = Exc ->
   search_documents_hybrid fmul db emb room_id doc_types top_k system_weight room_weight =
   match db 1%nat (ByVector emb doc_types top_k) with
   | Ret l => Plain l
   | Exc => Raised
   end) /\
  (forall system_results,
   db 0%nat (ByVector emb doc_types top_k) = Ret system_results ->
   room_search db emb room_id doc_types top_k = Exc ->
   search_documents_hybrid fmul db emb room_id doc_types top_k system_weight room_weight =
   match db 2%nat (ByVector emb doc_types top_k) with
   | Ret l => Plain l
   | Exc => Raised
   end).
Proof.
  intros fmul db emb room_id doc_types top_k sw rw. split.
  - intro H. unfold search_documents_hybrid. rewrite H. reflexivity.
  - intros sys H Hr. unfold search_documents_hybrid. rewrite H, Hr. reflexivity.
Qed.

Lemma search_documents_hybrid_fallback_witness :
  search_documents_hybrid Qmult
    (fun n c => match n, c with
                | 1%nat, WithRoomContext _ _ _ _ => Exc
                | _, _ => Ret [mk_row 1 (1#2) false]
                end) [] (Some 7%Z) [] DEFAULT_TOP_K DEFAULT_SYSTEM_WEIGHT DEFAULT_ROOM_WEIGHT
  = Plain [mk_row 1 (1#2) false].
Proof.
  destruct (search_documents_hybrid_fallback Qmult
    (fun n c => match n, c with
                | 1%nat, WithRoomContext _ _ _ _ => Exc
                | _, _ => Ret [mk_row 1 (1#2) false]
                end) [] (Some 7%Z) [] DEFAULT_TOP_K DEFAULT_SYSTEM_WEIGHT DEFAULT_ROOM_WEIGHT)
    as [_ H2].
  exact (H2 [mk_row 1 (1#2) false] eq_refl eq_refl).
Defined.

(** C7 fails as stated: when the room search raises and the fallback
    global search raises as well, the exception reaches the caller. *)
Lemma hybrid_fallback_exception_propagates :
  search_documents_hybrid Qmult
    (fun n c => match n, c with
                | 0%nat, ByVector _ _ _ => Ret [mk_row 1 (1#2) false]
                | _, _ => Exc
                end) [] (Some 7%Z) [] DEFAULT_TOP_K DEFAULT_SYSTEM_WEIGHT DEFAULT_ROOM_WEIGHT
  = Raised.
Proof. reflexivity. Qed.

(* ------------------------------------------------------------------ *)
(** ** Chunker *)

Lemma uint_to_str_inj : forall d1 d2, uint_to_str d1 = uint_to_str d2 -> d1 = d2.
Proof.
  induction d1; destruct d2; simpl; intro H; try discriminate; try reflexivity;
    injection H as H; f_equal; apply IHd1; exact H.
Qed.

Lemma show_nat_inj : forall a b, show_nat a = show_nat b -> a = b.
Proof.
  intros a b H. apply DecimalNat.Unsigned.to_uint_inj. apply uint_to_str_inj. exact H.
Qed.

Lemma parent_id_of_inj : forall fn a b, parent_id_of fn a = parent_id_of fn b -> a = b.
Proof.
  intros fn a b H. unfold parent_id_of in H.
  apply app_inv_head in H. apply app_inv_head in H. apply show_nat_inj. exact H.
Qed.

Lemma parent_id_of_eqb : forall fn a b,
  str_eqb (parent_id_of fn a) (parent_id_of fn b) = Nat.eqb a b.
Proof.
  intros fn a b. destruct (Nat.eqb a b) eqn:E.
  - apply Nat.eqb_eq in E. subst. apply str_eqb_refl.
  - apply str_eqb_neq. intro H. apply parent_id_of_inj in H. apply Nat.eqb_neq in E. contradiction.
Qed.

Lemma dget_app : forall l1 l2 k d, dget (l1 ++ l2) k d = dget l1 k (dget l2 k d).
Proof.
  induction l1 as [|[k' v] l1 IH]; intros l2 k d; simpl; [reflexivity|].
  destruct (str_eqb k k'); [reflexivity | apply IH].
Qed.

Lemma dget_dupdate : forall kvs m k d,
  dget (dupdate m kvs) k d = dget (rev kvs) k (dget m k d).
Proof.
  induction kvs as [|[k' v] kvs IH]; intros m k d; [reflexivity|].
  change (dupdate m ((k', v) :: kvs)) with (dupdate (dset m k' v) kvs).
  rewrite IH. cbn [rev]. rewrite dget_app. f_equal. cbn [dget].
  destruct (str_eqb k k') eqn:E.
  - apply str_eqb_eq in E. subst. apply dget_dset_eq.
  - apply dget_dset_neq. intro H. subst. rewrite str_eqb_refl in E. discriminate.
Qed.

Lemma dget_absent : forall m k d, (forall kv, In kv m -> fst kv <> k) -> dget m k d = d.
Proof.
  induction m as [|[k' v] m IH]; intros k d H; simpl; [reflexivity|].
  rewrite str_eqb_neq by (intro E; apply (H (k', v)); [left; reflexivity | symmetry; exact E]).
  apply IH. intros kv Hin. apply H. right. exact Hin.
Qed.

Lemma map_opt_nth : forall {A B} (f : A -> option B) l l' j y,
  map_opt f l = Some l' -> nth_error l' j = Some y ->
  exists x, nth_error l j = Some x /\ f x = Some y.
Proof.
  intros A B f l. induction l as [|x l IH]; intros l' j y H Hj; simpl in H.
  - injection H as <-. destruct j; discriminate.
  - destruct (f x) eqn:Ef; [|discriminate].
    destruct (map_opt f l) eqn:Er; [|discriminate]. injection H as <-.
    destruct j as [|j]; simpl in Hj.
    + injection Hj as <-. exists x. split; [reflexivity | exact Ef].
    + apply (IH l0 j y eq_refl Hj).
Qed.

Lemma map_opt_In : forall {A B} (f : A -> option B) l l' y,
  map_opt f l = Some l' -> In y l' -> exists x, In x l /\ f x = Some y.
Proof.
  intros A B f l l' y H Hy. apply In_nth_error in Hy as [j Hj].
  destruct (map_opt_nth f l l' j y H Hj) as [x [Hx Hf]].
  exists x. split; [apply nth_error_In with j; exact Hx | exact Hf].
Qed.

Lemma in_mapi_from : forall {A B} (f : nat -> A -> B) l i c,
  In c (mapi_from f i l) -> exists j x, c = f j x.
Proof.
  intros A B f l. induction l as [|x l IH]; intros i c H; simpl in H; [contradiction|].
  destruct H as [<- | H]; [exists i, x; reflexivity | apply (IH (S i) c H)].
Qed.

Lemma restore_header_doc : forall q0 q,
  restore_header q0 = Some q ->
  page_content q = page_content q0 /\
  dget (metadata q) (u "is_standalone") (PBool false) =
  dget (metadata q0) (u "is_standalone") (PBool false).
Proof.
  intros q0 q H. unfold restore_header in H.
  destruct (dget (metadata q0) (u "Header 2") (PStr [])) as [| | | |h| |];
    try (destruct (truthy _); [discriminate | injection H as <-; split; reflexivity]).
  destruct (_ && _ && _); injection H as <-; [|split; reflexivity].
  split; [reflexivity|]. simpl. apply dget_dset_neq. vm_compute. congruence.
Qed.

Lemma child_data_chunk_type : forall c,
  dget (child_data c) (u "chunk_type") PNone = PStr (u "child").
Proof. reflexivity. Qed.

Lemma child_data_parent_id : forall c,
  dget (child_data c) (u "parent_id") PNone = dget (metadata c) (u "parent_id") PNone.
Proof. reflexivity. Qed.

Lemma child_data_flag : forall c,
  dget (child_data c) (u "is_for_embedding") PNone = PBool true.
Proof. reflexivity. Qed.

Lemma parent_data_chunk_type : forall d,
  dget (parent_data d) (u "chunk_type") PNone = PStr (u "parent").
Proof. reflexivity. Qed.

Lemma parent_data_parent_id : forall d,
  dget (parent_data d) (u "parent_id") PNone = dget (metadata d) (u "parent_id") PNone.
Proof. reflexivity. Qed.

Lemma parent_data_content : forall d,
  dget (parent_data d) (u "content") PNone = PStr (page_content d).
Proof. reflexivity. Qed.

Lemma parent_data_flag : forall d,
  dget (parent_data d) (u "is_for_embedding") PNone =
  PBool (truthy (dget (metadata d) (u "is_standalone") (PBool false))).
Proof. reflexivity. Qed.

Lemma parent_data_not_child : forall pid d, is_child_of pid (parent_data d) = false.
Proof.
  intros pid d. unfold is_child_of. rewrite parent_data_chunk_type.
  destruct (dget (parent_data d) (u "parent_id") PNone); try reflexivity.
  destruct pid; reflexivity.
Qed.

Lemma filter_parents_not_child : forall pid ds,
  filter (is_child_of pid) (map parent_data ds) = [].
Proof.
  intros pid ds. induction ds as [|d ds IH]; simpl; [reflexivity|].
  rewrite parent_data_not_child. exact IH.
Qed.

(** Lookups in a dict built by [dset] with literal keys. *)
Ltac dict_simpl :=
  repeat (rewrite dget_dset_neq by (vm_compute; congruence)); try rewrite dget_dset_eq.

Section FanOut.

Variable split_documents : splitter_cfg -> document -> option (list document).

Lemma fan_one_kids : forall cfg fn idx q d kids c,
  fan_one split_documents cfg fn idx q = Some (d, kids) -> In c kids ->
  forall n, is_child_of (PStr (parent_id_of fn n)) (child_data c) = Nat.eqb idx n.
Proof.
  intros cfg fn idx q d kids c H Hc n. unfold fan_one in H.
  destruct (Nat.ltb _ _).
  - destruct (split_documents _ _) as [ks|]; [|discriminate]. injection H as _ <-.
    apply in_mapi_from in Hc as [j [x ->]].
    unfold is_child_of. rewrite child_data_chunk_type, child_data_parent_id.
    cbn [metadata]. do 3 rewrite dget_dset_neq by (vm_compute; congruence).
    rewrite dget_dset_eq. cbv iota beta.
    rewrite str_eqb_refl, parent_id_of_eqb. reflexivity.
  - injection H as _ <-. contradiction.
Qed.

Lemma fan_one_parent : forall cfg fn idx q d kids,
  fan_one split_documents cfg fn idx q = Some (d, kids) ->
  page_content d = page_content q /\
  dget (metadata d) (u "parent_id") PNone = PStr (parent_id_of fn idx) /\
  (Nat.ltb PARENT_SPLIT_THRESHOLD (List.length (page_content q)) = true ->
     dget (metadata d) (u "is_standalone") (PBool false) =
     dget (metadata q) (u "is_standalone") (PBool false) /\
     exists child_docs, split_documents cfg d = Some child_docs /\
                        List.length kids = List.length child_docs) /\
  (Nat.ltb PARENT_SPLIT_THRESHOLD (List.length (page_content q)) = false ->
     dget (metadata d) (u "is_standalone") (PBool false) = PBool true /\ kids = []).
Proof.
  intros cfg fn idx q d kids H. unfold fan_one in H.
  destruct (Nat.ltb _ _) eqn:E.
  - destruct (split_documents _ _) as [ks|] eqn:Es; [|discriminate]. injection H as <- <-.
    cbn [page_content metadata].
    split; [reflexivity|]. split; [dict_simpl; reflexivity|]. split; [|discriminate].
    intros _. split; [dict_simpl; reflexivity|]. exists ks. split; [exact Es|]. clear Es.
    generalize 0%nat. induction ks as [|x ks IH]; intro i; simpl; [reflexivity | f_equal; apply IH].
  - injection H as <- <-. cbn [page_content metadata].
    split; [reflexivity|]. split; [dict_simpl; reflexivity|].
    split; [discriminate|]. intros _. split; [dict_simpl; reflexivity | reflexivity].
Qed.

Lemma fan_out_nth : forall cfg fn qs idx rs,
  fan_out split_documents cfg fn idx qs = Some rs ->
  forall j r, nth_error rs j = Some r ->
  exists q, nth_error qs j = Some q /\ fan_one split_documents cfg fn (idx + j) q = Some r.
Proof.
  intros cfg fn qs. induction qs as [|q qs IH]; intros idx rs H j r Hj; simpl in H.
  - injection H as <-. destruct j; discriminate.
  - destruct (fan_one _ _ _ _ _) as [r0|] eqn:E0; [|discriminate].
    destruct (fan_out _ _ _ _ _) as [rs'|] eqn:E1; [|discriminate]. injection H as <-.
    destruct j as [|j]; simpl in Hj.
    + injection Hj as <-. exists q. rewrite Nat.add_0_r. split; [reflexivity | exact E0].
    + destruct (IH (S idx) rs' E1 j r Hj) as [q' [Hq Hf]]. exists q'.
      rewrite <- plus_n_Sm. split; [exact Hq | exact Hf].
Qed.

Lemma filter_kids_none : forall fn ks n idx,
  (forall c, In c ks -> is_child_of (PStr (parent_id_of fn n)) (child_data c) = Nat.eqb idx n) ->
  idx <> n -> filter (is_child_of (PStr (parent_id_of fn n))) (map child_data ks) = [].
Proof.
  intros fn ks n idx H Hne. induction ks as [|c ks IH]; simpl; [reflexivity|].
  rewrite H by (left; reflexivity). apply Nat.eqb_neq in Hne. rewrite Hne.
  apply IH. intros c' Hc'. apply H. right. exact Hc'.
Qed.

Lemma filter_kids_all : forall fn ks n,
  (forall c, In c ks -> is_child_of (PStr (parent_id_of fn n)) (child_data c) = Nat.eqb n n) ->
  filter (is_child_of (PStr (parent_id_of fn n))) (map child_data ks) = map child_data ks.
Proof.
  intros fn ks n H. induction ks as [|c ks IH]; simpl; [reflexivity|].
  rewrite H by (left; reflexivity). rewrite Nat.eqb_refl. f_equal.
  apply IH. intros c' Hc'. apply H. right. exact Hc'.
Qed.

Lemma fan_out_filter_before : forall cfg fn qs idx rs n,
  fan_out split_documents cfg fn idx qs = Some rs -> (n < idx)%nat ->
  filter (is_child_of (PStr (parent_id_of fn n))) (map child_data (List.concat (map snd rs))) = [].
Proof.
  intros cfg fn qs. induction qs as [|q qs IH]; intros idx rs n H Hn; simpl in H.
  - injection H as <-. reflexivity.
  - destruct (fan_one _ _ _ _ _) as [[d ks]|] eqn:E0; [|discriminate].
    destruct (fan_out _ _ _ _ _) as [rs'|] eqn:E1; [|discriminate]. injection H as <-.
    simpl. rewrite map_app, filter_app.
    rewrite (filter_kids_none fn ks n idx);
      [| intros c Hc; exact (fan_one_kids cfg fn idx q d ks c E0 Hc n) | lia].
    apply (IH (S idx) rs' n E1). lia.
Qed.

Lemma fan_out_filter_at : forall cfg fn qs idx rs i r,
  fan_out split_documents cfg fn idx qs = Some rs -> nth_error rs i = Some r ->
  filter (is_child_of (PStr (parent_id_of fn (idx + i))))
         (map child_data (List.concat (map snd rs))) = map child_data (snd r).
Proof.
  intros cfg fn qs. induction qs as [|q qs IH]; intros idx rs i r H Hi; simpl in H.
  - injection H as <-. destruct i; discriminate.
  - destruct (fan_one _ _ _ _ _) as [[d ks]|] eqn:E0; [|discriminate].
    destruct (fan_out _ _ _ _ _) as [rs'|] eqn:E1; [|discriminate]. injection H as <-.
    simpl. rewrite map_app, filter_app. destruct i as [|i]; simpl in Hi.
    + injection Hi as <-. rewrite Nat.add_0_r.
      rewrite (filter_kids_all fn ks idx)
        by (intros c Hc; exact (fan_one_kids cfg fn idx q d ks c E0 Hc idx)).
      rewrite (fan_out_filter_before cfg fn qs (S idx) rs' idx E1) by lia.
      apply List.app_nil_r.
    + rewrite (filter_kids_none fn ks (idx + S i) idx);
        [| intros c Hc; exact (fan_one_kids cfg fn idx q d ks c E0 Hc _) | lia].
      rewrite <- plus_n_Sm. apply (IH (S idx) rs' i r E1 Hi).
Qed.

End FanOut.

Lemma is_standalone_not_header : ~ In (u "is_standalone") (map snd HEADERS_TO_SPLIT_ON).
Proof. vm_compute. intro H. repeat destruct H as [H|H]; try discriminate H; exact H. Qed.

(** ** C2.  For the chunks [create_vector_ready_chunks] builds from a
    [chunk_markdown] run (with the LangChain splitters behaving as
    documented: header sections hold a non-blank text and only header
    metadata, and the child splitter keeps a non-blank text in at least one
    chunk), every parent is an embedding target exactly when it has no
    children: a parent longer than 500 characters is not a target and has
    at least one child, every one of them a target; a parent of at most 500
    characters is a target and has no child. *)
Theorem parent_xor_children_embedded :
  forall split_text split_documents (self : chunker) markdown_content filename i p text,
  (forall hs s ds d, split_text hs s = Some ds -> In d ds ->
     has_text (page_content d) = true /\
     (forall kv, In kv (metadata d) -> In (fst kv) (map snd hs))) ->
  (forall cfg d ks, split_documents cfg d = Some ks -> has_text (page_content d) = true ->
     ks <> []) ->
  headers_to_split_on self = HEADERS_TO_SPLIT_ON ->
  let chunks := create_vector_ready_chunks
                  (chunk_markdown split_text split_documents self markdown_content filename) in
  nth_error chunks i = Some p ->
  dget p (u "chunk_type") PNone = PStr (u "parent") ->
  dget p (u "content") PNone = PStr text ->
  let children := filter (is_child_of (dget p (u "parent_id") PNone)) chunks in
  ((List.length text > 500)%nat ->
     dget p (u "is_for_embedding") PNone = PBool false /\ children <> [] /\
     Forall (fun c => dget c (u "is_for_embedding") PNone = PBool true) children) /\
  ((List.length text <= 500)%nat ->
     dget p (u "is_for_embedding") PNone = PBool true /\ children = []).
Proof.
  intros split_text split_documents self md fn i p text Htext Hdocs Hhs chunks Hp Hty Hct children.
  subst chunks children.
  unfold create_vector_ready_chunks in *.
  destruct (chunk_markdown split_text split_documents self md fn) as [r|] eqn:Ecm;
    [|destruct i; discriminate].
  unfold chunk_markdown in Ecm.
  destruct (split_text _ _) as [ps0|] eqn:Est; [|discriminate].
  destruct (map_opt restore_header ps0) as [ps|] eqn:Emo; [|discriminate].
  destruct (fan_out _ _ _ _ _) as [rs|] eqn:Efo; [|discriminate].
  injection Ecm as <-. cbn [parent_chunks child_chunks] in *.
  destruct (Nat.lt_ge_cases i (List.length (map parent_data (map fst rs)))) as [Hi|Hi].
  2:{ rewrite nth_error_app2 in Hp by exact Hi.
      rewrite nth_error_map in Hp.
      destruct (nth_error _ _) as [c|]; [|discriminate]. injection Hp as <-.
      rewrite child_data_chunk_type in Hty. injection Hty as Hty. vm_compute in Hty. discriminate. }
  rewrite nth_error_app1 in Hp by exact Hi.
  rewrite !nth_error_map in Hp.
  destruct (nth_error rs i) as [[d ks]|] eqn:Eri; [|discriminate]. injection Hp as <-.
  destruct (fan_out_nth split_documents _ fn ps 0 rs Efo i (d, ks) Eri) as [q [Hq Hfan]].
  destruct (map_opt_nth restore_header ps0 ps i q Emo Hq) as [q0 [Hq0 Hres]].
  destruct (restore_header_doc q0 q Hres) as [Hcq Hsq].
  destruct (Htext _ _ _ q0 Est (nth_error_In _ _ Hq0)) as [Hnb Hkeys].
  assert (Hsa : dget (metadata q0) (u "is_standalone") (PBool false) = PBool false).
  { apply dget_absent. intros kv Hkv E. apply Hkeys in Hkv. rewrite Hhs, E in Hkv.
    exact (is_standalone_not_header Hkv). }
  destruct (fan_one_parent split_documents _ fn _ q d ks Hfan) as [Hcd [Hpid [Hlong Hshort]]].
  rewrite parent_data_content in Hct. injection Hct as Hct.
  assert (Htq : text = page_content q0) by congruence.
  rewrite filter_app, filter_parents_not_child, parent_data_parent_id, Hpid. cbn [app].
  rewrite (fan_out_filter_at split_documents _ fn ps 0 rs i (d, ks) Efo Eri). cbn [snd].
  rewrite parent_data_flag. split.
  - intro Hlen. rewrite Hcq, <- Htq in Hlong.
    destruct (Hlong (proj2 (Nat.ltb_lt _ _) Hlen)) as [Hs [cds [Ecd Hlenk]]].
    rewrite Hs, Hsq, Hsa. split; [reflexivity|]. split.
    + destruct ks as [|k ks]; [|discriminate].
      destruct cds as [|cd cds]; [|discriminate].
      exfalso. apply (Hdocs _ d [] Ecd); [|reflexivity]. rewrite Hcd, Hcq. exact Hnb.
    + apply Forall_forall. intros c Hc. apply in_map_iff in Hc as [k [<- _]].
      apply child_data_flag.
  - intro Hlen. rewrite Hcq, <- Htq in Hshort.
    destruct (Hshort (proj2 (Nat.ltb_ge _ _) Hlen)) as [Hs ->].
    rewrite Hs. split; reflexivity.
Qed.

Lemma example_split_text_ok : forall hs s ds d,
  example_split_text hs s = Some ds -> In d ds ->
  has_text (page_content d) = true /\
  (forall kv, In kv (metadata d) -> In (fst kv) (map snd hs)).
Proof.
  intros hs s ds d H Hin. unfold example_split_text in H. injection H as <-.
  destruct (has_text s) eqn:E; [|contradiction].
  destruct Hin as [<- | []]. split; [exact E | intros kv []].
Qed.

Lemma example_split_documents_ok : forall cfg d ks,
  example_split_documents cfg d = Some ks -> has_text (page_content d) = true -> ks <> [].
Proof. intros cfg d ks H _. injection H as <-. discriminate. Qed.

Lemma parent_xor_children_embedded_witness :
  let chunks := create_vector_ready_chunks
                  (chunk_markdown example_split_text example_split_documents example_chunker
                     (u "# Title
hello") (u "doc")) in
  dget (nth 0 chunks []) (u "is_for_embedding") PNone = PBool true /\
  filter (is_child_of (dget (nth 0 chunks []) (u "parent_id") PNone)) chunks = [].
Proof.
  destruct (parent_xor_children_embedded example_split_text example_split_documents
              example_chunker (u "# Title
hello") (u "doc") 0
              (nth 0 (create_vector_ready_chunks
                        (chunk_markdown example_split_text example_split_documents example_chunker
                           (u "# Title
hello") (u "doc"))) [])
              (u "# Title
hello")
              example_split_text_ok example_split_documents_ok eq_refl eq_refl eq_refl eq_refl)
    as [_ H].
  apply H. vm_compute. lia.
Defined.

Lemma fan_one_parent_cfg : forall sd cfg cfg' fn idx p r r',
  fan_one sd cfg fn idx p = Some r -> fan_one sd cfg' fn idx p = Some r' -> fst r = fst r'.
Proof.
  intros sd cfg cfg' fn idx p r r' H H'. unfold fan_one in H, H'.
  destruct (Nat.ltb _ _).
  - destruct (sd cfg _); [|discriminate]. destruct (sd cfg' _); [|discriminate].
    injection H as <-. injection H' as <-. reflexivity.
  - injection H as <-. injection H' as <-. reflexivity.
Qed.

Lemma fan_out_parents_cfg : forall sd cfg cfg' fn ps idx rs rs',
  fan_out sd cfg fn idx ps = Some rs -> fan_out sd cfg' fn idx ps = Some rs' ->
  map fst rs = map fst rs'.
Proof.
  intros sd cfg cfg' fn ps. induction ps as [|p ps IH]; intros idx rs rs' H H'; simpl in H, H'.
  - injection H as <-. injection H' as <-. reflexivity.
  - destruct (fan_one sd cfg fn idx p) as [r|] eqn:E; [|discriminate].
    destruct (fan_out sd cfg fn (S idx) ps) as [l|] eqn:El; [|discriminate].
    destruct (fan_one sd cfg' fn idx p) as [r'|] eqn:E'; [|discriminate].
    destruct (fan_out sd cfg' fn (S idx) ps) as [l'|] eqn:El'; [|discriminate].
    injection H as <-. injection H' as <-. simpl.
    f_equal; [exact (fan_one_parent_cfg sd cfg cfg' fn idx p r r' E E') | exact (IH _ _ _ El El')].
Qed.

(** ** C10.  [update_chunk_settings] sets [chunk_size], [chunk_overlap] and
    (when the splitter constructor returns) the child splitter, and leaves
    [headers_to_split_on] unchanged; whenever [chunk_markdown] succeeds
    both before and after the update, it yields the same parent chunks,
    with the same standalone flags: the fan-out threshold is the literal 500
    and does not depend on the settings. *)
Theorem update_chunk_settings_keeps_fan_out :
  forall split_text make_splitter split_documents self cs co markdown_content filename r r',
  let self' := fst (update_chunk_settings make_splitter self cs co) in
  headers_to_split_on self' = headers_to_split_on self /\
  chunk_size self' = cs /\ chunk_overlap self' = co /\
  child_splitter self' = match make_splitter cs co with
                         | Some sp => sp
                         | None => child_splitter self
                         end /\
  (chunk_markdown split_text split_documents self markdown_content filename = Some r ->
   chunk_markdown split_text split_documents self' markdown_content filename = Some r' ->
   parent_chunks r' = parent_chunks r).
Proof.
  intros st ms sd self cs co md fn r r' self'.
  assert (Hh : headers_to_split_on self' = headers_to_split_on self).
  { subst self'. unfold update_chunk_settings. destruct (ms cs co); reflexivity. }
  split; [exact Hh|].
  split; [subst self'; unfold update_chunk_settings; destruct (ms cs co); reflexivity|].
  split; [subst self'; unfold update_chunk_settings; destruct (ms cs co); reflexivity|].
  split; [subst self'; unfold update_chunk_settings; destruct (ms cs co); reflexivity|].
  intros H H'. unfold chunk_markdown in H, H'. rewrite Hh in H'.
  destruct (st _ _) as [ps0|]; [|discriminate].
  destruct (map_opt restore_header ps0) as [ps|]; [|discriminate].
  destruct (fan_out sd (child_splitter self) fn 0 ps) as [rs|] eqn:E; [|discriminate].
  destruct (fan_out sd (child_splitter self') fn 0 ps) as [rs'|] eqn:E'; [|discriminate].
  injection H as <-. injection H' as <-. cbn [parent_chunks].
  symmetry. exact (fan_out_parents_cfg sd _ _ fn ps 0 rs rs' E E').
Qed.

Lemma update_chunk_settings_keeps_fan_out_witness :
  let long := repeat (97 : char) 700 ++ [10] ++ repeat (98 : char) 30 in
  let ms := fun cs co : Z => Some (cs, co) in
  let sd := fun (cfg : splitter_cfg) (d : document) =>
              Some (if (fst cfg <? 300)%Z then [d; d] else [d]) in
  let before := chunk_markdown example_split_text sd example_chunker long (u "doc") in
  let after := chunk_markdown example_split_text sd
                 (fst (update_chunk_settings ms example_chunker 200 20)) long (u "doc") in
  option_map (fun r => List.length (child_chunks r)) before = Some 1%nat /\
  option_map (fun r => List.length (child_chunks r)) after = Some 2%nat /\
  parent_chunks (match after with Some r => r | None => mk_result [] [] end) =
  parent_chunks (match before with Some r => r | None => mk_result [] [] end).
Proof.
  intros long ms sd before after.
  split; [vm_compute; reflexivity|]. split; [vm_compute; reflexivity|].
  destruct (update_chunk_settings_keeps_fan_out example_split_text ms sd example_chunker
              200 20 long (u "doc")
              (match before with Some r => r | None => mk_result [] [] end)
              (match after with Some r => r | None => mk_result [] [] end))
    as [_ [_ [_ [_ H]]]].
  exact (H eq_refl eq_refl).
Defined.

(* ------------------------------------------------------------------ *)
(** ** Section splitter *)

Lemma filter_map_if : forall {A B} (P : A -> bool) (g : A -> B) l,
  filter_map (fun x => if P x then Some (g x) else None) l = map g (filter P l).
Proof.
  intros A B P g l. induction l as [|x l IH]; simpl; [reflexivity|].
  destruct (P x); simpl; rewrite IH; reflexivity.
Qed.

Lemma map_snd_filter_enum : forall (P : str -> bool) l i,
  map snd (filter (fun ip : nat * str => P (snd ip)) (mapi_from pair i l)) = filter P l.
Proof.
  intros P l. induction l as [|x l IH]; intro i; simpl; [reflexivity|].
  destruct (P x); simpl; rewrite IH; reflexivity.
Qed.

Lemma length_filter_le : forall {A} (P : A -> bool) l, (List.length (filter P l) <= List.length l)%nat.
Proof.
  intros A P l. induction l as [|x l IH]; simpl; [lia|]. destruct (P x); simpl; lia.
Qed.

Lemma length_mapi_from : forall {A B} (f : nat -> A -> B) l i,
  List.length (mapi_from f i l) = List.length l.
Proof. intros A B f l. induction l as [|x l IH]; intro i; simpl; [reflexivity | f_equal; apply IH]. Qed.

(** When the line loop of [_create_manual_sections] yields no section, the
    text is split on ["\n\n"] into stripped non-blank paragraphs; of the
    first 10 of these, exactly those longer than 50 characters are emitted,
    in order, as dicts with ["header_1"] = "조항 i" (i the paragraph's
    position, 1 to 10), ["content"] and ["chunk_type"] = "parent", and no
    ["is_for_embedding"] key. *)
Theorem manual_sections_paragraph_fallback : forall doc_parser_result markdown_content,
  dget doc_parser_result (u "markdown_content") (PStr []) = PStr markdown_content ->
  markdown_content <> [] ->
  header_sections markdown_content = [] ->
  let out := create_manual_sections doc_parser_result in
  let kept := filter (fun ip : nat * str => Nat.ltb 50 (List.length (snd ip)))
                     (mapi_from pair 1 (firstn 10 (paragraphs_of markdown_content))) in
  map (fun d => dget d (u "content") PNone) out =
    map PStr (filter (fun p => Nat.ltb 50 (List.length p))
                     (firstn 10 (paragraphs_of markdown_content))) /\
  map (fun d => dget d (u "header_1") PNone) out =
    map (fun ip : nat * str => PStr (u "조항 " ++ show_nat (fst ip))) kept /\
  Forall (fun d => dget d (u "chunk_type") PNone = PStr (u "parent") /\
                   dmem d (u "is_for_embedding") = false) out /\
  (List.length out <= 10)%nat.
Proof.
  intros dpr md Hmd Hne Hhs out kept. subst out kept.
  unfold create_manual_sections. rewrite Hmd.
  destruct md as [|c md']; [contradiction|]. rewrite Hhs.
  unfold paragraph_sections. rewrite filter_map_if.
  set (ps := firstn 10 (paragraphs_of (c :: md'))).
  split; [|split; [|split]].
  - rewrite map_map.
    transitivity (map PStr (map snd (filter (fun ip : nat * str => Nat.ltb 50 (List.length (snd ip)))
                                            (mapi_from pair 1 ps)))).
    + rewrite map_map. apply map_ext. intros [i p]. reflexivity.
    + f_equal. exact (map_snd_filter_enum (fun p => Nat.ltb 50 (List.length p)) ps 1).
  - rewrite map_map. apply map_ext. intros [i p]. reflexivity.
  - apply Forall_forall. intros d Hd. apply in_map_iff in Hd as [[i p] [<- _]].
    split; reflexivity.
  - rewrite length_map. eapply Nat.le_trans; [apply length_filter_le|].
    rewrite length_mapi_from. subst ps. rewrite length_firstn. lia.
Qed.

Lemma manual_sections_paragraph_fallback_witness :
  let md := u "# short" ++ [10; 10] ++ u "# " ++ repeat (120 : char) 60 in
  map (fun d => dget d (u "content") PNone) (create_manual_sections [(u "markdown_content", PStr md)])
  = [PStr (u "# " ++ repeat (120 : char) 60)].
Proof.
  intro md.
  destruct (manual_sections_paragraph_fallback [(u "markdown_content", PStr md)] md
              eq_refl ltac:(discriminate) ltac:(vm_compute; reflexivity)) as [H _].
  rewrite H. vm_compute. reflexivity.
Defined.

(** The cap of 10 applies before the length filter: of eleven paragraphs
    (all of them headings, so the line loop yields no section), the first
    short and the ten others longer than 50 characters, only nine are
    emitted. *)
Lemma manual_sections_cap_before_filter :
  let long := u "# " ++ repeat (120 : char) 60 in
  let md := join [10; 10] (u "# short" :: repeat long 10) in
  header_sections md = [] /\
  List.length (filter (fun p => Nat.ltb 50 (List.length p)) (paragraphs_of md)) = 10%nat /\
  List.length (create_manual_sections [(u "markdown_content", PStr md)]) = 9%nat.
Proof. vm_compute. split; [reflexivity | split; reflexivity]. Qed.

(* ------------------------------------------------------------------ *)
(** ** Embedding service *)

Lemma enh_of_refl : forall doc, enh_of doc doc.
Proof. intros doc k def _. reflexivity. Qed.

Lemma enh_of_dset : forall doc d k v,
  In k EMBEDDING_KEYS -> enh_of doc d -> enh_of doc (dset d k v).
Proof.
  intros doc d k v Hk H k' def Hk'. rewrite dget_dset_neq by (intro E; subst; contradiction).
  apply H. exact Hk'.
Qed.

Lemma enh_of_dupdate : forall kvs doc d,
  Forall (fun kv => In (fst kv) EMBEDDING_KEYS) kvs -> enh_of doc d -> enh_of doc (dupdate d kvs).
Proof.
  induction kvs as [|[k v] kvs IH]; intros doc d Hk H; [exact H|].
  inversion Hk as [|? ? Hk1 Hk2]; subst.
  change (dupdate d ((k, v) :: kvs)) with (dupdate (dset d k v) kvs).
  apply IH; [exact Hk2 | apply enh_of_dset; assumption].
Qed.

Ltac emb_key := unfold EMBEDDING_KEYS; simpl; tauto.

Lemma enh_of_non_embedding_doc : forall cfg doc, enh_of doc (non_embedding_doc cfg doc).
Proof.
  intros cfg doc. unfold non_embedding_doc.
  repeat (apply enh_of_dset; [emb_key|]). apply enh_of_refl.
Qed.

Lemma enh_of_embedded_doc : forall cfg doc e, enh_of doc (embedded_doc cfg doc e).
Proof.
  intros cfg doc e. unfold embedded_doc.
  repeat (apply enh_of_dset; [emb_key|]). apply enh_of_refl.
Qed.

Lemma enh_of_failed_doc : forall doc, enh_of doc (failed_doc doc).
Proof.
  intros doc. unfold failed_doc. repeat (apply enh_of_dset; [emb_key|]). apply enh_of_refl.
Qed.

Lemma enh_of_except : forall m doc,
  enh_of doc (dupdate doc [(u "embedding", PNone); (u "embedding_success", PBool false);
                           (u "embedding_error", PStr m)]).
Proof.
  intros m doc. apply enh_of_dupdate; [|apply enh_of_refl].
  repeat constructor; emb_key.
Qed.

Lemma length_list_set : forall {A} (l : list A) i x, List.length (list_set l i x) = List.length l.
Proof.
  intros A l. induction l as [|y l IH]; intros [|i] x; simpl; try reflexivity. f_equal. apply IH.
Qed.

Lemma nth_list_set_eq : forall {A} (l : list A) i x,
  (i < List.length l)%nat -> nth_error (list_set l i x) i = Some x.
Proof.
  intros A l. induction l as [|y l IH]; intros [|i] x H; simpl in *; try lia; try reflexivity.
  apply IH. lia.
Qed.

Lemma nth_list_set_neq : forall {A} (l : list A) i j x,
  j <> i -> nth_error (list_set l i x) j = nth_error l j.
Proof.
  intros A l. induction l as [|y l IH]; intros [|i] [|j] x H; simpl; try reflexivity; try lia.
  apply IH. lia.
Qed.

Lemma nth_error_mapi_pair : forall {A} (l : list A) k p,
  In p (mapi_from pair k l) -> (k <= fst p)%nat /\ nth_error l (fst p - k) = Some (snd p).
Proof.
  intros A l. induction l as [|x l IH]; intros k p H; simpl in H; [contradiction|].
  destruct H as [<- | H].
  - simpl. rewrite Nat.sub_diag. split; [lia | reflexivity].
  - destruct (IH (S k) p H) as [H1 H2]. split; [lia|].
    replace (fst p - k)%nat with (S (fst p - S k)) by lia. exact H2.
Qed.

Lemma in_mapi_pair : forall {A} (l : list A) k j x,
  nth_error l j = Some x -> In (k + j, x)%nat (mapi_from pair k l).
Proof.
  intros A l. induction l as [|y l IH]; intros k j x H; [destruct j; discriminate|].
  destruct j as [|j]; simpl in H.
  - injection H as <-. left. f_equal. lia.
  - right. replace (k + S j)%nat with (S k + j)%nat by lia. apply IH. exact H.
Qed.

Lemma map_snd_mapi_pair : forall {A} (l : list A) k, map snd (mapi_from pair k l) = l.
Proof.
  intros A l. induction l as [|x l IH]; intro k; simpl; [reflexivity | f_equal; apply IH].
Qed.

Lemma filter_map_all_some : forall {A} (l : list (option A)) (a : A),
  (forall o, In o l -> o <> None) ->
  filter_map (fun o => o) l = map (fun o => match o with Some x => x | None => a end) l.
Proof.
  intros A l a H. induction l as [|[x|] l IH]; simpl; [reflexivity| |].
  - f_equal. apply IH. intros o Ho. apply H. right. exact Ho.
  - exfalso. apply (H None); [left; reflexivity | reflexivity].
Qed.

Lemma filter_nil_negb : forall {A} (P : A -> bool) l,
  filter P l = [] -> filter (fun x => negb (P x)) l = l.
Proof.
  intros A P l. induction l as [|x l IH]; simpl; intro H; [reflexivity|].
  destruct (P x); [discriminate|]. simpl. f_equal. apply IH. exact H.
Qed.

Lemma dget_not_mem : forall d k def, dmem d k = false -> dget d k def = def.
Proof.
  induction d as [|[k' v] d IH]; intros k def H; simpl in *; [reflexivity|].
  apply orb_false_iff in H as [H1 H2]. rewrite H1. apply IH. exact H2.
Qed.

Lemma valid_texts_from_sound : forall texts i v,
  valid_texts_from i texts = inr v -> Forall (fun p => has_text (snd p) = true) v.
Proof.
  induction texts as [|t texts IH]; intros i v H; simpl in H.
  - injection H as <-. constructor.
  - destruct t; try discriminate.
    destruct (valid_texts_from (S i) texts) as [m|l] eqn:E; [discriminate|].
    injection H as <-. destruct (has_text s) eqn:Hs.
    + constructor; [exact Hs | exact (IH _ _ E)].
    + exact (IH _ _ E).
Qed.

Lemma valid_texts_from_complete : forall texts i v s,
  valid_texts_from i texts = inr v -> In (PStr s) texts -> has_text s = true ->
  In s (map snd v).
Proof.
  induction texts as [|t texts IH]; intros i v s H Hin Hs; simpl in H; [contradiction|].
  destruct t; try discriminate.
  destruct (valid_texts_from (S i) texts) as [m|l] eqn:E; [discriminate|].
  injection H as <-. destruct Hin as [Ht | Hin].
  - injection Ht as ->. rewrite Hs. left. reflexivity.
  - destruct (has_text s0); [right|]; exact (IH _ _ _ E Hin Hs).
Qed.

Lemma valid_texts_from_strings : forall texts i,
  (forall t, In t texts -> exists s, t = PStr s) -> exists v, valid_texts_from i texts = inr v.
Proof.
  induction texts as [|t texts IH]; intros i H; simpl; [eexists; reflexivity|].
  destruct (H t (or_introl eq_refl)) as [s ->].
  destruct (IH (S i)) as [v Hv]; [intros t' Ht'; apply H; right; exact Ht'|].
  rewrite Hv. eexists. reflexivity.
Qed.

Section Merge.

Variable docs : list dict.

Lemma good_set : forall acc i x,
  good docs acc -> (i < List.length docs)%nat -> enh_of (nth i docs []) x ->
  good docs (list_set acc i (Some x)).
Proof.
  intros acc i x [Hl Hg] Hi Hx. split; [rewrite length_list_set; exact Hl|].
  intros j d Hj. destruct (Nat.eq_dec j i) as [->|Hne].
  - rewrite nth_list_set_eq in Hj by lia. injection Hj as <-. exact Hx.
  - rewrite nth_list_set_neq in Hj by exact Hne. exact (Hg j d Hj).
Qed.

Lemma filled_set : forall acc i x j,
  (i < List.length acc)%nat -> (j = i \/ filled acc j) -> filled (list_set acc i (Some x)) j.
Proof.
  intros acc i x j Hi [->|[d Hd]].
  - exists x. apply nth_list_set_eq. exact Hi.
  - destruct (Nat.eq_dec j i) as [->|Hne].
    + exists x. apply nth_list_set_eq. exact Hi.
    + exists d. rewrite nth_list_set_neq by exact Hne. exact Hd.
Qed.

Lemma merge_targets_good : forall cfg vi es targets acc ei,
  Forall (fun t => nth_error docs (fst (snd t)) = Some (snd (snd t))) targets ->
  good docs acc ->
  good docs (merge_targets cfg vi es targets acc ei) /\
  forall j, (In j (map (fun t => fst (snd t)) targets) \/ filled acc j) ->
            filled (merge_targets cfg vi es targets acc ei) j.
Proof.
  intros cfg vi es targets. induction targets as [|[ti [oi doc]] targets IH];
    intros acc ei Ht Hg.
  - split; [exact Hg|]. intros j [[]|H]; exact H.
  - inversion Ht as [|? ? Ht1 Ht2]; subst. cbn [fst snd] in Ht1.
    assert (Hoi : (oi < List.length docs)%nat) by (apply nth_error_Some; congruence).
    assert (Hdoc : nth oi docs [] = doc) by (apply nth_error_nth; exact Ht1).
    assert (Hacc : (oi < List.length acc)%nat) by (destruct Hg as [Hl _]; lia).
    cbn [merge_targets].
    match goal with
    | |- context [if ?c then _ else _] => destruct c
    end.
    + assert (Hx : enh_of (nth oi docs []) (embedded_doc cfg doc (nth ei es [])))
        by (rewrite Hdoc; apply enh_of_embedded_doc).
      destruct (IH _ (S ei) Ht2 (good_set acc oi _ Hg Hoi Hx)) as [IH1 IH2].
      split; [exact IH1|]. intros j Hj. apply IH2.
      destruct Hj as [[Hj|Hj]|Hj]; [right; apply filled_set; [exact Hacc | left; symmetry; exact Hj]
                                   | left; exact Hj
                                   | right; apply filled_set; [exact Hacc | right; exact Hj]].
    + assert (Hx : enh_of (nth oi docs []) (failed_doc doc))
        by (rewrite Hdoc; apply enh_of_failed_doc).
      destruct (IH _ ei Ht2 (good_set acc oi _ Hg Hoi Hx)) as [IH1 IH2].
      split; [exact IH1|]. intros j Hj. apply IH2.
      destruct Hj as [[Hj|Hj]|Hj]; [right; apply filled_set; [exact Hacc | left; symmetry; exact Hj]
                                   | left; exact Hj
                                   | right; apply filled_set; [exact Hacc | right; exact Hj]].
Qed.

Lemma fold_sets_good : forall pairs acc,
  Forall (fun p => (fst p < List.length docs)%nat /\ enh_of (nth (fst p) docs []) (snd p)) pairs ->
  good docs acc ->
  good docs (fold_left (fun acc p => list_set acc (fst p) (Some (snd p))) pairs acc) /\
  forall j, (In j (map fst pairs) \/ filled acc j) ->
            filled (fold_left (fun acc p => list_set acc (fst p) (Some (snd p))) pairs acc) j.
Proof.
  induction pairs as [|[i x] pairs IH]; intros acc Hp Hg.
  - split; [exact Hg|]. intros j [[]|H]; exact H.
  - inversion Hp as [|? ? [Hi Hx] Hp2]; subst. cbn [fst snd] in Hi, Hx. cbn [fold_left fst snd].
    assert (Hacc : (i < List.length acc)%nat) by (destruct Hg as [Hl _]; lia).
    destruct (IH _ Hp2 (good_set acc i x Hg Hi Hx)) as [IH1 IH2].
    split; [exact IH1|]. intros j Hj. apply IH2.
    destruct Hj as [[Hj|Hj]|Hj]; [right; apply filled_set; [exact Hacc | left; symmetry; exact Hj]
                                 | left; exact Hj
                                 | right; apply filled_set; [exact Hacc | right; exact Hj]].
Qed.

End Merge.

Lemma positional_of_good : forall docs acc,
  good docs acc -> (forall j, (j < List.length docs)%nat -> filled acc j) ->
  positional docs (filter_map (fun o => o) acc).
Proof.
  intros docs acc [Hl Hg] Hf. unfold positional.
  rewrite (filter_map_all_some acc []).
  - split; [rewrite length_map; exact Hl|].
    intros j d Hj. rewrite nth_error_map in Hj.
    destruct (nth_error acc j) as [[x|]|] eqn:E; try discriminate;
      injection Hj as <-; [exact (Hg j x E)|].
    destruct (Hf j) as [y Hy]; [rewrite <- Hl; apply nth_error_Some; congruence | congruence].
  - intros o Ho E. subst o. apply In_nth_error in Ho as [j Hj].
    destruct (Hf j) as [y Hy]; [rewrite <- Hl; apply nth_error_Some; congruence | congruence].
Qed.

Lemma positional_map : forall (f : dict -> dict) docs,
  (forall d, enh_of d (f d)) ->
  positional docs (map f docs).
Proof.
  intros f docs Hf. unfold positional. split; [apply length_map|].
  intros j d Hj. rewrite nth_error_map in Hj.
  destruct (nth_error docs j) as [x|] eqn:E; [|discriminate]. injection Hj as <-.
  replace (nth j docs []) with x by (symmetry; apply nth_error_nth; exact E). apply Hf.
Qed.

Lemma good_repeat_none : forall docs, good docs (repeat None (List.length docs)).
Proof.
  intros docs. split; [apply repeat_length|].
  intros j d Hj. apply nth_error_In in Hj. apply repeat_spec in Hj. discriminate.
Qed.

Lemma merged_positional : forall cfg vi es docs,
  let indexed := mapi_from pair 0 docs in
  let targets := filter (fun p => is_embedding_target (snd p)) indexed in
  let nec := map (fun p => (fst p, non_embedding_doc cfg (snd p)))
                 (filter (fun p => negb (is_embedding_target (snd p))) indexed) in
  positional docs
    (filter_map (fun o => o)
       (fold_left (fun acc p => list_set acc (fst p) (Some (snd p))) nec
          (merge_targets cfg vi es (mapi_from pair 0 targets)
             (repeat None (List.length docs)) 0))).
Proof.
  intros cfg vi es docs indexed targets nec.
  assert (Hidx : forall p, In p indexed -> nth_error docs (fst p) = Some (snd p)).
  { intros p Hp. destruct (nth_error_mapi_pair docs 0 p Hp) as [_ H].
    rewrite Nat.sub_0_r in H. exact H. }
  destruct (merge_targets_good docs cfg vi es (mapi_from pair 0 targets)
              (repeat None (List.length docs)) 0) as [G1 F1].
  { apply Forall_forall. intros t Ht.
    apply Hidx. apply (filter_In (fun p => is_embedding_target (snd p)) (snd t) indexed).
    change (In (snd t) targets). rewrite <- (map_snd_mapi_pair targets 0).
    apply in_map. exact Ht. }
  { apply good_repeat_none. }
  assert (Hnec : Forall (fun p => (fst p < List.length docs)%nat /\
                                  enh_of (nth (fst p) docs []) (snd p)) nec).
  { apply Forall_forall. intros p Hp. unfold nec in Hp.
    apply in_map_iff in Hp as [q [<- Hq]]. apply filter_In in Hq as [Hq _].
    pose proof (Hidx q Hq) as Hn. cbn [fst snd]. split.
    - apply nth_error_Some. congruence.
    - replace (nth (fst q) docs []) with (snd q) by (symmetry; apply nth_error_nth; exact Hn).
      apply enh_of_non_embedding_doc. }
  destruct (fold_sets_good docs nec _ Hnec G1) as [G2 F2].
  apply positional_of_good; [exact G2|].
  intros j Hj. apply F2.
  destruct (nth_error docs j) as [x|] eqn:Ex; [|apply nth_error_None in Ex; lia].
  pose proof (in_mapi_pair docs 0 j x Ex) as Hin. change (In (j, x) indexed) in Hin.
  destruct (is_embedding_target x) eqn:Et.
  - right. apply F1. left.
    rewrite <- map_map with (f := snd) (g := fst), map_snd_mapi_pair.
    change j with (fst (j, x)). apply in_map. apply filter_In. split; [exact Hin | exact Et].
  - left. unfold nec. rewrite map_map. cbn [fst].
    change j with (fst (j, x)). apply in_map. apply filter_In. split; [exact Hin|].
    cbn [snd]. rewrite Et. reflexivity.
Qed.

Lemma embed_chunked_documents_length_order : forall cfg batch docs ck,
  positional docs (fst (embed_chunked_documents cfg batch docs ck)).
Proof.
  intros cfg batch docs ck. unfold embed_chunked_documents.
  destruct docs as [|d0 ds] eqn:Ed; [split; [reflexivity | intros [|j] d H; discriminate]|].
  rewrite <- Ed. unfold embed_nonempty. cbv zeta.
  destruct (filter (fun p => is_embedding_target (snd p)) (mapi_from pair 0 docs)) as [|t0 ts] eqn:Et.
  - cbn [fst]. rewrite map_map. cbn [snd].
    rewrite filter_nil_negb by exact Et.
    rewrite <- map_map with (f := snd) (g := non_embedding_doc cfg), map_snd_mapi_pair.
    apply positional_map. apply enh_of_non_embedding_doc.
  - destruct (valid_texts_from 0 _) as [m|[|v0 vs]] eqn:Ev.
    + apply positional_map. apply enh_of_except.
    + cbn [fst]. split; [reflexivity|]. intros j d Hj.
      replace (nth j docs []) with d by (symmetry; apply nth_error_nth; exact Hj).
      apply enh_of_refl.
    + destruct (batch _) as [es|m].
      * cbn [fst]. rewrite <- Et. apply merged_positional.
      * apply positional_map. apply enh_of_except.
Qed.

Lemma embed_calls_have_text : forall cfg batch docs ck texts s,
  In texts (snd (embed_chunked_documents cfg batch docs ck)) -> In s texts -> has_text s = true.
Proof.
  intros cfg batch docs ck texts s Hc Hs. unfold embed_chunked_documents in Hc.
  destruct docs as [|d0 ds]; [contradiction|].
  unfold embed_nonempty in Hc. cbv zeta in Hc.
  destruct (filter _ _) as [|t0 ts]; [contradiction|].
  destruct (valid_texts_from 0 _) as [m|[|v0 vs]] eqn:Ev; [contradiction|contradiction|].
  assert (Hc' : texts = map snd (v0 :: vs)).
  { destruct (batch _); destruct Hc as [<-|[]]; reflexivity. }
  subst texts. apply in_map_iff in Hs as [p [<- Hp]].
  pose proof (valid_texts_from_sound _ _ _ Ev) as Hf. rewrite Forall_forall in Hf.
  exact (Hf p Hp).
Qed.

Lemma embed_unflagged_sent : forall cfg batch docs ck j doc s,
  nth_error docs j = Some doc ->
  dmem doc (u "is_for_embedding") = false ->
  dget doc ck (PStr []) = PStr s ->
  has_text s = true ->
  (forall d, In d docs -> is_embedding_target d = true -> exists s', dget d ck (PStr []) = PStr s') ->
  exists texts, snd (embed_chunked_documents cfg batch docs ck) = [texts] /\ In s texts.
Proof.
  intros cfg batch docs ck j doc s Hj Hflag Hs Hts Hstr.
  assert (Htarget : is_embedding_target doc = true).
  { unfold is_embedding_target. rewrite dget_not_mem by exact Hflag. reflexivity. }
  assert (Hin : In (j, doc) (filter (fun p => is_embedding_target (snd p)) (mapi_from pair 0 docs))).
  { apply filter_In. split; [exact (in_mapi_pair docs 0 j doc Hj) | exact Htarget]. }
  assert (Hall : forall t, In t (map (fun p => dget (snd p) ck (PStr []))
                     (filter (fun p => is_embedding_target (snd p)) (mapi_from pair 0 docs))) ->
                   exists s', t = PStr s').
  { intros t Ht. apply in_map_iff in Ht as [p [<- Hp]]. apply filter_In in Hp as [Hp Hpt].
    destruct (nth_error_mapi_pair docs 0 p Hp) as [_ Hn]. rewrite Nat.sub_0_r in Hn.
    destruct (Hstr (snd p) (nth_error_In _ _ Hn) Hpt) as [s' Hs']. exists s'. exact Hs'. }
  assert (Hsin : In (PStr s) (map (fun p => dget (snd p) ck (PStr []))
                   (filter (fun p => is_embedding_target (snd p)) (mapi_from pair 0 docs)))).
  { rewrite <- Hs. change (dget doc ck (PStr [])) with ((fun p => dget (snd p) ck (PStr [])) (j, doc)).
    apply in_map. exact Hin. }
  unfold embed_chunked_documents.
  destruct docs as [|d0 ds] eqn:Ed; [destruct j; discriminate|].
  rewrite <- Ed in *. unfold embed_nonempty. cbv zeta.
  destruct (valid_texts_from_strings _ 0 Hall) as [v Hv].
  pose proof (valid_texts_from_complete _ _ _ _ Hv Hsin Hts) as Hsv.
  destruct (filter (fun p => is_embedding_target (snd p)) (mapi_from pair 0 docs)) as [|t0 ts];
    [contradiction|].
  rewrite Hv. destruct v as [|v0 vs]; [contradiction|].
  exists (map snd (v0 :: vs)). split; [destruct (batch _); reflexivity | exact Hsv].
Qed.

(** Claim C9 (as amended): [embed_chunked_documents] returns exactly one
    entry per input chunk, in input order, each entry being its input chunk
    with at most the keys [embedding], [embedding_success],
    [embedding_metadata] and [embedding_error] changed. Only texts with
    non-whitespace content are ever passed to the batch embedding call. A
    chunk with no [is_for_embedding] key is an embedding target: when its
    content is a string with text (and every target's content is a string),
    that content is sent in the single batch call. *)
Theorem embed_chunked_documents_positional : forall cfg batch docs ck,
  positional docs (fst (embed_chunked_documents cfg batch docs ck)) /\
  (forall texts s, In texts (snd (embed_chunked_documents cfg batch docs ck)) ->
                   In s texts -> has_text s = true) /\
  (forall j doc s,
     nth_error docs j = Some doc ->
     dmem doc (u "is_for_embedding") = false ->
     dget doc ck (PStr []) = PStr s ->
     has_text s = true ->
     (forall d, In d docs -> is_embedding_target d = true ->
                exists s', dget d ck (PStr []) = PStr s') ->
     exists texts, snd (embed_chunked_documents cfg batch docs ck) = [texts] /\ In s texts).
Proof.
  intros cfg batch docs ck. split; [|split].
  - apply embed_chunked_documents_length_order.
  - intros texts s. apply embed_calls_have_text.
  - intros j doc s. apply embed_unflagged_sent.
Qed.

Lemma embed_chunked_documents_positional_witness :
  snd (embed_chunked_documents example_embedding_config example_batch example_embed_docs (u "content"))
    = [[u "child text"]] /\
  List.length (fst (embed_chunked_documents example_embedding_config example_batch
                      example_embed_docs (u "content"))) = 2%nat /\
  exists texts,
    snd (embed_chunked_documents example_embedding_config example_batch example_embed_docs (u "content"))
      = [texts] /\ In (u "child text") texts.
Proof.
  split; [vm_compute; reflexivity|]. split.
  - destruct (embed_chunked_documents_positional example_embedding_config example_batch
                example_embed_docs (u "content")) as [[Hl _] _].
    rewrite Hl. reflexivity.
  - destruct (embed_chunked_documents_positional example_embedding_config example_batch
                example_embed_docs (u "content")) as [_ [_ H]].
    apply (H 1%nat [(u "content", PStr (u "child text"))] (u "child text")).
    + reflexivity.
    + vm_compute. reflexivity.
    + vm_compute. reflexivity.
    + vm_compute. reflexivity.
    + intros d Hd Ht. vm_compute in Hd.
      destruct Hd as [<-|[<-|[]]]; [vm_compute in Ht; discriminate Ht | eexists; vm_compute; reflexivity].
Defined.

(** A chunk without [is_for_embedding] whose content is blank is never
    sent to the batch call: here it is the only target, no call is made, and
    the input is returned unchanged, without any embedding key. *)
Lemma embed_blank_unflagged_not_sent :
  embed_chunked_documents example_embedding_config example_batch
    [[(u "content", PStr (u "  "))]] (u "content")
  = ([[(u "content", PStr (u "  "))]], []).
Proof. vm_compute. reflexivity. Qed.

(* ------------------------------------------------------------------ *)
(** ** Embedding service: the output on each path *)

Lemma valid_texts_from_map_PStr : forall ss i,
  valid_texts_from i (map PStr ss) = inr (filter (fun p => has_text (snd p)) (mapi_from pair i ss)).
Proof.
  induction ss as [|s ss IH]; intro i; simpl; [reflexivity|].
  rewrite IH. destruct (has_text s); reflexivity.
Qed.

Lemma skipn_cons_nth : forall {A} (l : list A) n x r d,
  skipn n l = x :: r -> nth n l d = x /\ (n < List.length l)%nat /\ skipn (S n) l = r.
Proof.
  intros A l. induction l as [|y l IH]; intros [|n] x r d H; simpl in *; try discriminate.
  - injection H as -> ->. split; [reflexivity | split; [lia | destruct r; reflexivity]].
    (* skipn 1 (x :: r) = r *)
  - destruct (IH n x r d H) as [H1 [H2 H3]]. split; [exact H1 | split; [lia | exact H3]].
Qed.

Lemma nth_mapi_pair_fst : forall {A} (l : list A) k j d,
  (j < List.length l)%nat -> nth j (map fst (mapi_from pair k l)) d = (k + j)%nat.
Proof.
  intros A l. induction l as [|x l IH]; intros k [|j] d H; simpl in *; try lia.
  rewrite IH by lia. lia.
Qed.

Lemma count_has_text_mapi : forall ss k j,
  In j (map fst (filter (fun p => has_text (snd p)) (mapi_from pair k ss))) <->
  (k <= j)%nat /\ exists s, nth_error ss (j - k) = Some s /\ has_text s = true.
Proof.
  induction ss as [|s ss IH]; intros k j; simpl.
  - split; [intros []|]. intros [_ [s [Hs _]]]. destruct (j - k)%nat; discriminate.
  - destruct (has_text s) eqn:Hs; simpl; rewrite IH; split.
    + intros [<-|[Hk [s' [Hn Ht]]]].
      * split; [lia|]. exists s. rewrite Nat.sub_diag. split; [reflexivity | exact Hs].
      * split; [lia|]. exists s'. replace (j - k)%nat with (S (j - S k)) by lia. split; assumption.
    + intros [Hk [s' [Hn Ht]]]. destruct (Nat.eq_dec j k) as [->|Hne]; [left; reflexivity|].
      right. split; [lia|]. exists s'. replace (j - k)%nat with (S (j - S k)) in Hn by lia.
      split; assumption.
    + intros [Hk [s' [Hn Ht]]]. split; [lia|]. exists s'.
      replace (j - k)%nat with (S (j - S k)) by lia. split; assumption.
    + intros [Hk [s' [Hn Ht]]]. destruct (Nat.eq_dec j k) as [->|Hne].
      * rewrite Nat.sub_diag in Hn. injection Hn as <-. congruence.
      * split; [lia|]. exists s'. replace (j - k)%nat with (S (j - S k)) in Hn by lia.
        split; assumption.
Qed.

Lemma existsb_eqb_In : forall j l, existsb (Nat.eqb j) l = true <-> In j l.
Proof.
  intros j l. rewrite existsb_exists. split.
  - intros [x [Hx E]]. apply Nat.eqb_eq in E. subst. exact Hx.
  - intro H. exists j. split; [exact H | apply Nat.eqb_refl].
Qed.

(** The merge loop over the targets, when the valid indices and the
    embeddings line up with the targets' texts. *)
Lemma merge_targets_exact : forall cfg (f : str -> list pyval) vi es
    (L : list ((nat * dict) * str)) k ei acc,
  (forall j, (j < List.length L)%nat ->
     existsb (Nat.eqb (k + j)) vi = has_text (nth j (map snd L) [])) ->
  (exists rest, skipn ei es = map f (filter has_text (map snd L)) ++ rest) ->
  merge_targets cfg vi es (mapi_from pair k (map fst L)) acc ei =
  fold_left (fun acc x => list_set acc (fst (fst x))
               (Some (if has_text (snd x) then embedded_doc cfg (snd (fst x)) (f (snd x))
                      else failed_doc (snd (fst x))))) L acc.
Proof.
  intros cfg f vi es L. induction L as [|[[oi doc] s] L IH]; intros k ei acc Hvi [rest Hes];
    [reflexivity|].
  cbn [map mapi_from fst snd merge_targets fold_left].
  pose proof (Hvi 0%nat ltac:(simpl; lia)) as H0. rewrite Nat.add_0_r in H0. cbn [nth map] in H0.
  rewrite H0.
  assert (Hvi' : forall j, (j < List.length L)%nat ->
            existsb (Nat.eqb (S k + j)) vi = has_text (nth j (map snd L) [])).
  { intros j Hj. replace (S k + j)%nat with (k + S j)%nat by lia.
    exact (Hvi (S j) ltac:(simpl; lia)). }
  cbn [map filter fst snd] in Hes, H0 |- *. destruct (has_text s) eqn:Hs; cbn [app map] in Hes.
  - destruct (skipn_cons_nth es ei _ _ [] Hes) as [Hn [Hl Hsk]].
    rewrite (proj2 (Nat.ltb_lt _ _) Hl). cbn [andb]. rewrite Hn.
    apply IH; [exact Hvi' | exists rest; exact Hsk].
  - cbn [andb]. apply IH; [exact Hvi' | exists rest; exact Hes].
Qed.

Section Exact.

Variable docs : list dict.
Variable H : nat -> dict.

Definition agrees (acc : list (option dict)) : Prop :=
  List.length acc = List.length docs /\
  forall j d, nth_error acc j = Some (Some d) -> d = H j.

Lemma agrees_set : forall acc i,
  agrees acc -> (i < List.length docs)%nat -> agrees (list_set acc i (Some (H i))).
Proof.
  intros acc i [Hl Hg] Hi. split; [rewrite length_list_set; exact Hl|].
  intros j d Hj. destruct (Nat.eq_dec j i) as [->|Hne].
  - rewrite nth_list_set_eq in Hj by lia. injection Hj as <-. reflexivity.
  - rewrite nth_list_set_neq in Hj by exact Hne. exact (Hg j d Hj).
Qed.

Lemma fold_agrees : forall {X} (idx : X -> nat) (val : X -> dict) (xs : list X) acc,
  (forall x, In x xs -> (idx x < List.length docs)%nat /\ val x = H (idx x)) ->
  agrees acc ->
  agrees (fold_left (fun acc x => list_set acc (idx x) (Some (val x))) xs acc) /\
  forall j, (In j (map idx xs) \/ filled acc j) ->
            filled (fold_left (fun acc x => list_set acc (idx x) (Some (val x))) xs acc) j.
Proof.
  intros X idx val xs. induction xs as [|x xs IH]; intros acc Hx Ha.
  - split; [exact Ha|]. intros j [[]|Hj]; exact Hj.
  - destruct (Hx x (or_introl eq_refl)) as [Hi Hv]. cbn [fold_left]. rewrite Hv.
    assert (Hacc : (idx x < List.length acc)%nat) by (destruct Ha as [Hl _]; lia).
    destruct (IH (list_set acc (idx x) (Some (H (idx x)))))
      as [IH1 IH2]; [intros y Hy; apply Hx; right; exact Hy | apply agrees_set; assumption|].
    split; [exact IH1|]. intros j Hj. apply IH2.
    destruct Hj as [[Hj|Hj]|Hj]; [right; apply filled_set; [exact Hacc | left; symmetry; exact Hj]
                                 | left; exact Hj
                                 | right; apply filled_set; [exact Hacc | right; exact Hj]].
Qed.

Lemma agrees_all_filled : forall acc,
  agrees acc -> (forall j, (j < List.length docs)%nat -> filled acc j) ->
  filter_map (fun o => o) acc = map H (seq 0 (List.length docs)).
Proof.
  intros acc [Hl Hg] Hf.
  assert (E : acc = map (fun j => Some (H j)) (seq 0 (List.length docs))).
  { apply nth_error_ext. intro j. rewrite nth_error_map.
    destruct (Nat.lt_ge_cases j (List.length docs)) as [Hj|Hj].
    - rewrite nth_error_seq. destruct (Nat.ltb_spec j (List.length docs)); [|lia].
      cbn [option_map]. destruct (Hf j Hj) as [d Hd]. rewrite Hd, (Hg j d Hd). reflexivity.
    - rewrite (proj2 (nth_error_None acc j)) by lia.
      rewrite (proj2 (nth_error_None (seq 0 (List.length docs)) j)) by (rewrite length_seq; lia).
      reflexivity. }
  rewrite E. clear. induction (seq 0 (List.length docs)) as [|j l IH]; simpl; [reflexivity|].
  f_equal. exact IH.
Qed.

End Exact.

Lemma nth_of_nth_error : forall {A} (l : list A) j x d, nth_error l j = Some x -> nth j l d = x.
Proof. intros A l j x d H. apply nth_error_nth. exact H. Qed.

Lemma map_nth_seq_docs : forall (h : dict -> dict) (docs : list dict),
  map (fun j => h (nth j docs [])) (seq 0 (List.length docs)) = map h docs.
Proof.
  intros h docs. apply nth_error_ext. intro j. rewrite !nth_error_map, nth_error_seq.
  destruct (Nat.ltb_spec j (List.length docs)) as [Hj|Hj].
  - rewrite (nth_error_nth' docs [] Hj). reflexivity.
  - rewrite (proj2 (nth_error_None docs j)) by lia. reflexivity.
Qed.

Lemma map_snd_filter_mapi : forall {A} (P : A -> bool) l k,
  map snd (filter (fun p => P (snd p)) (mapi_from pair k l)) = filter P l.
Proof.
  intros A P l. induction l as [|x l IH]; intro k; simpl; [reflexivity|].
  destruct (P x); simpl; rewrite IH; reflexivity.
Qed.

Lemma contents_all_strings : forall ck l,
  (forall d, In d l -> content_str ck d <> None) ->
  map (fun d => dget d ck (PStr [])) l = map PStr (filter_map (content_str ck) l).
Proof.
  intros ck l. induction l as [|d l IH]; intro Hl; simpl; [reflexivity|].
  pose proof (Hl d (or_introl eq_refl)) as Hd. unfold content_str in Hd |- *.
  destruct (dget d ck (PStr [])); try (exfalso; apply Hd; reflexivity).
  simpl. f_equal. apply IH. intros d' Hd'. apply Hl. right. exact Hd'.
Qed.

(** Every position below the length of [docs] is assigned by one of the
    two loops. *)
Lemma positions_covered : forall cfg (docs : list dict) j,
  (j < List.length docs)%nat ->
  In j (map (fun t => fst t)
          (filter (fun p => is_embedding_target (snd p)) (mapi_from pair 0 docs))) \/
  In j (map fst (map (fun p => (fst p, non_embedding_doc cfg (snd p)))
          (filter (fun p => negb (is_embedding_target (snd p))) (mapi_from pair 0 docs)))).
Proof.
  intros cfg docs j Hj.
  destruct (nth_error docs j) as [x|] eqn:Ex; [|apply nth_error_None in Ex; lia].
  pose proof (in_mapi_pair docs 0 j x Ex) as Hin. cbn [Nat.add] in Hin.
  destruct (is_embedding_target x) eqn:Et.
  - left. change j with (fst (j, x)). apply in_map. apply filter_In. split; [exact Hin | exact Et].
  - right. rewrite map_map. change j with (fst (j, x)). apply in_map. apply filter_In.
    split; [exact Hin | cbn [snd]; rewrite Et; reflexivity].
Qed.

(** When every target's content is a string, at least one of them is not
    blank, and the batch call returns the vector [f t] for each text [t]:
    [embed_chunked_documents] makes exactly one batch call, on the non-blank
    target contents in order, and returns every chunk in place: a target
    with text carries its own text's vector ([embedding_success] True), a
    target with blank content is marked failed, and a chunk flagged out of
    embedding gets the parent-chunk metadata. *)
Theorem embed_chunked_documents_success : forall cfg f docs ck,
  (forall d, In d docs -> is_embedding_target d = true -> content_str ck d <> None) ->
  target_texts ck docs <> [] ->
  embed_chunked_documents cfg (fun ts => BatchOk (map f ts)) docs ck =
    (map (expected_embedding cfg f ck) docs, [target_texts ck docs]).
Proof.
  intros cfg f docs ck Hstr Hne.
  set (I := mapi_from pair 0 docs).
  set (T := filter (fun p => is_embedding_target (snd p)) I).
  assert (HT : map snd T = filter is_embedding_target docs) by apply map_snd_filter_mapi.
  set (ss := filter_map (content_str ck) (filter is_embedding_target docs)).
  assert (Htexts : map (fun p => dget (snd p) ck (PStr [])) T = map PStr ss).
  { rewrite <- (map_map snd (fun d => dget d ck (PStr []))), HT.
    apply contents_all_strings. intros d Hd. apply filter_In in Hd as [Hd Ht]. exact (Hstr d Hd Ht). }
  set (V := filter (fun p => has_text (snd p)) (mapi_from pair 0 ss)).
  assert (HV : map snd V = target_texts ck docs) by apply map_snd_filter_mapi.
  assert (Hidx : forall p, In p I -> nth_error docs (fst p) = Some (snd p)).
  { intros p Hp. destruct (nth_error_mapi_pair docs 0 p Hp) as [_ Hn].
    rewrite Nat.sub_0_r in Hn. exact Hn. }
  assert (Ew : embed_chunked_documents cfg (fun ts => BatchOk (map f ts)) docs ck =
               embed_nonempty cfg (fun ts => BatchOk (map f ts)) docs ck).
  { unfold embed_chunked_documents. destruct docs; [exfalso; apply Hne; reflexivity | reflexivity]. }
  rewrite Ew. unfold embed_nonempty. cbv zeta. fold I. fold T.
  destruct T as [|t0 ts] eqn:ET; [exfalso; apply Hne; unfold target_texts; rewrite <- HT; reflexivity|].
  rewrite <- ET in *. rewrite Htexts, valid_texts_from_map_PStr. fold V.
  destruct V as [|v0 vs] eqn:EV; [exfalso; apply Hne; rewrite <- HV; reflexivity|].
  rewrite <- EV in *. rewrite HV.
  f_equal.
  set (str_of := fun p : nat * dict => match content_str ck (snd p) with Some s => s | None => [] end).
  set (L := map (fun p => (p, str_of p)) T).
  assert (HL1 : map fst L = T) by (unfold L; rewrite map_map; apply map_id).
  assert (HL2 : map snd L = ss).
  { unfold L, ss. rewrite map_map. cbn [snd]. rewrite <- HT.
    assert (Hall : forall p, In p T -> content_str ck (snd p) <> None).
    { intros p Hp. apply filter_In in Hp as [Hp Ht]. apply (Hstr (snd p)); [|exact Ht].
      exact (nth_error_In _ _ (Hidx p Hp)). }
    clear -Hall. induction T as [|p T IH]; [reflexivity|].
    cbn [map filter_map]. unfold str_of at 1.
    destruct (content_str ck (snd p)) eqn:E; [|exfalso; exact (Hall p (or_introl eq_refl) E)].
    f_equal. apply IH. intros q Hq. apply Hall. right. exact Hq. }
  rewrite <- HL1.
  rewrite (merge_targets_exact cfg f (map fst V) (map f (target_texts ck docs)) L 0 0).
  2:{ intros j Hj. cbn [Nat.add]. rewrite HL2.
      assert (Hjs : (j < List.length ss)%nat) by (rewrite <- HL2, length_map; exact Hj).
      destruct (existsb (Nat.eqb j) (map fst V)) eqn:Eb.
      - apply existsb_eqb_In in Eb. unfold V in Eb. apply count_has_text_mapi in Eb as [_ [s [Hn Hs]]].
        rewrite Nat.sub_0_r in Hn. rewrite (nth_of_nth_error ss j s [] Hn). symmetry. exact Hs.
      - destruct (has_text (nth j ss [])) eqn:Hs; [|reflexivity].
        exfalso. apply Bool.not_true_iff_false in Eb. apply Eb. apply existsb_eqb_In.
        unfold V. apply count_has_text_mapi. split; [lia|]. exists (nth j ss []).
        rewrite Nat.sub_0_r. split; [apply nth_error_nth'; exact Hjs | exact Hs]. }
  2:{ exists []. rewrite List.app_nil_r, HL2. reflexivity. }
  set (H := fun j => expected_embedding cfg f ck (nth j docs [])).
  destruct (fold_agrees docs H (fun x => fst (fst x))
              (fun x => if has_text (snd x) then embedded_doc cfg (snd (fst x)) (f (snd x))
                        else failed_doc (snd (fst x))) L (repeat None (List.length docs)))
    as [A1 F1].
  { intros x Hx. unfold L in Hx. apply in_map_iff in Hx as [p [<- Hp]]. cbn [fst snd].
    pose proof Hp as Hp'. apply filter_In in Hp' as [HpI Ht].
    pose proof (Hidx p HpI) as Hn. split; [apply nth_error_Some; congruence|].
    unfold H. rewrite (nth_of_nth_error docs (fst p) (snd p) [] Hn).
    unfold expected_embedding. rewrite Ht. unfold embedded_or_failed, str_of.
    destruct (content_str ck (snd p)) eqn:E; [reflexivity|].
    exfalso. exact (Hstr (snd p) (nth_error_In _ _ Hn) Ht E). }
  { split; [apply repeat_length|]. intros j d Hj. apply nth_error_In, repeat_spec in Hj. discriminate. }
  assert (Hnec : forall x, In x (map (fun p => (fst p, non_embedding_doc cfg (snd p)))
                   (filter (fun p => negb (is_embedding_target (snd p))) I)) ->
                 (fst x < List.length docs)%nat /\ snd x = H (fst x)).
  { intros x Hx. apply in_map_iff in Hx as [q [<- Hq]]. apply filter_In in Hq as [HqI Ht].
    cbn [fst snd]. pose proof (Hidx q HqI) as Hn. split; [apply nth_error_Some; congruence|].
    unfold H. rewrite (nth_of_nth_error docs (fst q) (snd q) [] Hn). unfold expected_embedding.
    destruct (is_embedding_target (snd q)); [discriminate | reflexivity]. }
  destruct (fold_agrees docs H fst snd _ _ Hnec A1) as [A2 F2].
  rewrite (agrees_all_filled docs H _ A2).
  - unfold H. apply map_nth_seq_docs.
  - intros j Hj. apply F2.
    destruct (positions_covered cfg docs j Hj) as [Hc|Hc]; [right; apply F1; left | left; exact Hc].
    unfold L. rewrite map_map. cbn [fst]. exact Hc.
Qed.

Lemma embed_chunked_documents_success_witness :
  embed_chunked_documents example_embedding_config
    (fun ts => BatchOk (map (fun s => [PInt (Z.of_nat (List.length s))]) ts))
    example_embed_docs (u "content")
  = (map (expected_embedding example_embedding_config
            (fun s => [PInt (Z.of_nat (List.length s))]) (u "content")) example_embed_docs,
     [[u "child text"]]).
Proof.
  apply (embed_chunked_documents_success example_embedding_config
           (fun s => [PInt (Z.of_nat (List.length s))]) example_embed_docs (u "content")).
  - intros d Hd Ht. vm_compute in Hd.
    destruct Hd as [<-|[<-|[]]]; [vm_compute in Ht; discriminate Ht | vm_compute; discriminate].
  - vm_compute. discriminate.
Defined.

Lemma filter_false_nil : forall {A} (P : A -> bool) l,
  (forall x, In x l -> P x = false) -> filter P l = [].
Proof.
  intros A P l H. induction l as [|x l IH]; simpl; [reflexivity|].
  rewrite (H x (or_introl eq_refl)). apply IH. intros y Hy. apply H. right. exact Hy.
Qed.

Lemma embed_chunked_documents_unfold : forall cfg batch docs ck,
  docs <> [] -> embed_chunked_documents cfg batch docs ck = embed_nonempty cfg batch docs ck.
Proof. intros cfg batch [|d ds] ck H; [contradiction | reflexivity]. Qed.

(** When the batch call raises with message [m], every chunk, flagged
    parents included, is returned with [embedding] None,
    [embedding_success] False and [embedding_error] [m] (the [except]
    branch); the batch call was made once, on the non-blank target texts. *)
Theorem embed_chunked_documents_batch_error : forall cfg batch docs ck m,
  (forall d, In d docs -> is_embedding_target d = true -> content_str ck d <> None) ->
  target_texts ck docs <> [] ->
  batch (target_texts ck docs) = BatchErr m ->
  embed_chunked_documents cfg batch docs ck = (except_docs m docs, [target_texts ck docs]).
Proof.
  intros cfg batch docs ck m Hstr Hne Hb.
  assert (HT : map snd (filter (fun p => is_embedding_target (snd p)) (mapi_from pair 0 docs))
               = filter is_embedding_target docs) by apply map_snd_filter_mapi.
  assert (Htexts : map (fun p => dget (snd p) ck (PStr []))
                     (filter (fun p => is_embedding_target (snd p)) (mapi_from pair 0 docs))
                   = map PStr (filter_map (content_str ck) (filter is_embedding_target docs))).
  { rewrite <- (map_map snd (fun d => dget d ck (PStr []))), HT.
    apply contents_all_strings. intros d Hd. apply filter_In in Hd as [Hd Ht]. exact (Hstr d Hd Ht). }
  assert (HV : map snd (filter (fun p => has_text (snd p))
                 (mapi_from pair 0 (filter_map (content_str ck) (filter is_embedding_target docs))))
               = target_texts ck docs) by apply map_snd_filter_mapi.
  rewrite embed_chunked_documents_unfold by (intros ->; apply Hne; reflexivity).
  unfold embed_nonempty. cbv zeta.
  destruct (filter (fun p => is_embedding_target (snd p)) (mapi_from pair 0 docs)) as [|t0 ts] eqn:ET.
  { exfalso. apply Hne. unfold target_texts. rewrite <- HT. reflexivity. }
  rewrite Htexts, valid_texts_from_map_PStr.
  destruct (filter (fun p => has_text (snd p))
              (mapi_from pair 0 (filter_map (content_str ck) (filter is_embedding_target docs))))
    as [|v0 vs] eqn:EV; [exfalso; apply Hne; rewrite <- HV; reflexivity|].
  rewrite HV, Hb. reflexivity.
Qed.

Lemma embed_chunked_documents_batch_error_witness :
  embed_chunked_documents example_embedding_config (fun _ => BatchErr (u "throttled"))
    example_embed_docs (u "content")
  = (except_docs (u "throttled") example_embed_docs, [[u "child text"]]).
Proof.
  apply (embed_chunked_documents_batch_error example_embedding_config
           (fun _ => BatchErr (u "throttled")) example_embed_docs (u "content") (u "throttled")).
  - intros d Hd Ht. vm_compute in Hd.
    destruct Hd as [<-|[<-|[]]]; [vm_compute in Ht; discriminate Ht | vm_compute; discriminate].
  - vm_compute. discriminate.
  - reflexivity.
Defined.

Lemma valid_texts_from_first_non_string : forall pre v post i,
  (forall s, v <> PStr s) ->
  valid_texts_from i (map PStr pre ++ v :: post) =
    inl (u "'" ++ type_name v ++ u "' object has no attribute 'strip'").
Proof.
  induction pre as [|s pre IH]; intros v post i Hv; simpl.
  - destruct v; try reflexivity. exfalso. exact (Hv s eq_refl).
  - rewrite IH by exact Hv. reflexivity.
Qed.

(** When some embedding target's content is not a string (for instance
    None), [.strip()] raises before any batch call: every chunk is returned
    with the failure marks and the message of that [AttributeError], raised
    on the first target content in order that is not a string (["'NoneType'
    object has no attribute 'strip'"] for None), and no batch call is made. *)
Theorem embed_chunked_documents_non_string_content : forall cfg batch docs ck pre v post,
  map (fun d => dget d ck (PStr [])) (filter is_embedding_target docs) = map PStr pre ++ v :: post ->
  (forall s, v <> PStr s) ->
  embed_chunked_documents cfg batch docs ck =
    (except_docs (u "'" ++ type_name v ++ u "' object has no attribute 'strip'") docs, []).
Proof.
  intros cfg batch docs ck pre v post Htexts Hv.
  assert (Hne : docs <> []) by (intros ->; simpl in Htexts; destruct pre; discriminate).
  rewrite embed_chunked_documents_unfold by exact Hne.
  unfold embed_nonempty. cbv zeta.
  assert (Ht : map (fun p => dget (snd p) ck (PStr []))
                 (filter (fun p => is_embedding_target (snd p)) (mapi_from pair 0 docs))
               = map PStr pre ++ v :: post).
  { rewrite <- (map_map snd (fun x => dget x ck (PStr []))), map_snd_filter_mapi. exact Htexts. }
  destruct (filter (fun p => is_embedding_target (snd p)) (mapi_from pair 0 docs)) as [|t0 ts] eqn:ET.
  { simpl in Ht. destruct pre; discriminate. }
  rewrite Ht, valid_texts_from_first_non_string by exact Hv. reflexivity.
Qed.

Lemma embed_chunked_documents_non_string_content_witness :
  embed_chunked_documents example_embedding_config example_batch
    [[(u "content", PNone)]] (u "content")
  = (except_docs (u "'" ++ type_name PNone ++ u "' object has no attribute 'strip'")
                 [[(u "content", PNone)]], []).
Proof.
  apply (embed_chunked_documents_non_string_content example_embedding_config example_batch
           [[(u "content", PNone)]] (u "content") [] PNone []).
  - reflexivity.
  - intros s E. discriminate E.
Defined.

(** When no chunk is an embedding target, no batch call is made and every
    chunk is returned in place with [embedding] None, [embedding_success]
    False and the parent-chunk [embedding_metadata]. *)
Theorem embed_chunked_documents_no_targets : forall cfg batch docs ck,
  (forall d, In d docs -> is_embedding_target d = false) ->
  embed_chunked_documents cfg batch docs ck = (map (non_embedding_doc cfg) docs, []).
Proof.
  intros cfg batch docs ck H.
  destruct docs as [|d0 ds] eqn:Ed; [reflexivity|]. rewrite <- Ed in *.
  rewrite embed_chunked_documents_unfold by (rewrite Ed; discriminate).
  unfold embed_nonempty. cbv zeta.
  assert (Hnil : filter (fun p => is_embedding_target (snd p)) (mapi_from pair 0 docs) = []).
  { apply filter_false_nil. intros p Hp.
    destruct (nth_error_mapi_pair docs 0 p Hp) as [_ Hn]. rewrite Nat.sub_0_r in Hn.
    rewrite (H (snd p) (nth_error_In _ _ Hn)). reflexivity. }
  rewrite Hnil. cbn [fst snd]. f_equal.
  rewrite map_map. cbn [snd]. rewrite filter_nil_negb by exact Hnil.
  rewrite <- (map_map snd (non_embedding_doc cfg)), map_snd_mapi_pair. reflexivity.
Qed.

Lemma embed_chunked_documents_no_targets_witness :
  embed_chunked_documents example_embedding_config example_batch
    [[(u "content", PStr (u "p")); (u "is_for_embedding", PBool false)]] (u "content")
  = (map (non_embedding_doc example_embedding_config)
       [[(u "content", PStr (u "p")); (u "is_for_embedding", PBool false)]], []).
Proof.
  apply embed_chunked_documents_no_targets. intros d [<-|[]]. reflexivity.
Defined.

(** When every target's content is a string but all of them are blank,
    no batch call is made and the input list is returned unchanged, with no
    embedding key added to any chunk. *)
Theorem embed_chunked_documents_blank_texts : forall cfg batch docs ck,
  filter is_embedding_target docs <> [] ->
  (forall d, In d docs -> is_embedding_target d = true -> content_str ck d <> None) ->
  target_texts ck docs = [] ->
  embed_chunked_documents cfg batch docs ck = (docs, []).
Proof.
  intros cfg batch docs ck Hne Hstr Hnone.
  assert (HT : map snd (filter (fun p => is_embedding_target (snd p)) (mapi_from pair 0 docs))
               = filter is_embedding_target docs) by apply map_snd_filter_mapi.
  assert (Htexts : map (fun p => dget (snd p) ck (PStr []))
                     (filter (fun p => is_embedding_target (snd p)) (mapi_from pair 0 docs))
                   = map PStr (filter_map (content_str ck) (filter is_embedding_target docs))).
  { rewrite <- (map_map snd (fun d => dget d ck (PStr []))), HT.
    apply contents_all_strings. intros d Hd. apply filter_In in Hd as [Hd Ht]. exact (Hstr d Hd Ht). }
  assert (HV : map snd (filter (fun p => has_text (snd p))
                 (mapi_from pair 0 (filter_map (content_str ck) (filter is_embedding_target docs))))
               = target_texts ck docs) by apply map_snd_filter_mapi.
  rewrite embed_chunked_documents_unfold by (intros ->; apply Hne; reflexivity).
  unfold embed_nonempty. cbv zeta.
  destruct (filter (fun p => is_embedding_target (snd p)) (mapi_from pair 0 docs)) as [|t0 ts] eqn:ET.
  { exfalso. apply Hne. rewrite <- HT. reflexivity. }
  rewrite Htexts, valid_texts_from_map_PStr.
  destruct (filter (fun p => has_text (snd p))
              (mapi_from pair 0 (filter_map (content_str ck) (filter is_embedding_target docs))))
    as [|v0 vs] eqn:EV; [reflexivity|].
  rewrite Hnone in HV. discriminate.
Qed.

Lemma embed_chunked_documents_blank_texts_witness :
  embed_chunked_documents example_embedding_config example_batch
    [[(u "content", PStr (u " "))]; [(u "content", PStr (u "p")); (u "is_for_embedding", PBool false)]]
    (u "content")
  = ([[(u "content", PStr (u " "))]; [(u "content", PStr (u "p")); (u "is_for_embedding", PBool false)]], []).
Proof.
  apply embed_chunked_documents_blank_texts.
  - vm_compute. discriminate.
  - intros d Hd Ht. vm_compute in Hd.
    destruct Hd as [<-|[<-|[]]]; [vm_compute; discriminate | vm_compute in Ht; discriminate Ht].
  - vm_compute. reflexivity.
Defined.

(* ------------------------------------------------------------------ *)
(** ** Parent context of a child chunk *)

Lemma in_mapi_from_In : forall {A B} (f : nat -> A -> B) l i c,
  In c (mapi_from f i l) -> exists j x, In x l /\ c = f j x.
Proof.
  intros A B f l. induction l as [|x l IH]; intros i c H; simpl in H; [contradiction|].
  destruct H as [<- | H].
  - exists i, x. split; [left|]; reflexivity.
  - destruct (IH (S i) c H) as [j [y [Hy ->]]]. exists j, y. split; [right; exact Hy | reflexivity].
Qed.

Lemma uint_to_str_digits : forall d, forallb is_digit (uint_to_str d) = true.
Proof. induction d; simpl; try rewrite IHd; reflexivity. Qed.

Lemma digits_app_inv : forall a b c d x y,
  forallb is_digit a = true -> forallb is_digit b = true ->
  is_digit c = false -> is_digit d = false ->
  a ++ c :: x = b ++ d :: y -> a = b.
Proof.
  induction a as [|a0 a IH]; intros [|b0 b] c d x y Ha Hb Hc Hd H; simpl in *.
  - reflexivity.
  - injection H as -> _. apply andb_true_iff in Hb as [Hb _]. congruence.
  - injection H as <- _. apply andb_true_iff in Ha as [Ha _]. congruence.
  - injection H as -> H. apply andb_true_iff in Ha as [_ Ha]. apply andb_true_iff in Hb as [_ Hb].
    f_equal. exact (IH b c d x y Ha Hb Hc Hd H).
Qed.

Lemma child_id_parent_index : forall fn i j i' j',
  parent_id_of fn i ++ u "_child_" ++ show_nat j = parent_id_of fn i' ++ u "_child_" ++ show_nat j' ->
  i = i'.
Proof.
  intros fn i j i' j' H. unfold parent_id_of in H. rewrite <- !app_assoc in H.
  apply app_inv_head in H. apply app_inv_head in H.
  assert (Hc : u "_child_" = 95 :: u "child_") by reflexivity. rewrite Hc in H.
  apply show_nat_inj.
  exact (digits_app_inv _ _ 95 95 _ _ (uint_to_str_digits _) (uint_to_str_digits _) eq_refl eq_refl H).
Qed.

Lemma parent_id_of_truthy : forall fn i, truthy (PStr (parent_id_of fn i)) = true.
Proof.
  intros fn i. cbn [truthy]. destruct (Nat.eqb_spec (List.length (parent_id_of fn i)) 0) as [E|E];
    [|reflexivity].
  exfalso. unfold parent_id_of in E.
  assert (L : List.length (u "_parent_") = 8%nat) by reflexivity.
  rewrite !length_app, L in E. lia.
Qed.

Lemma fan_one_child : forall sd cfg fn idx q d kids c,
  fan_one sd cfg fn idx q = Some (d, kids) -> In c kids ->
  (exists j, dget (metadata c) (u "child_id") PNone =
             PStr (parent_id_of fn idx ++ u "_child_" ++ show_nat j)) /\
  dget (metadata c) (u "parent_id") PNone = PStr (parent_id_of fn idx) /\
  exists ks, sd cfg d = Some ks /\ In (page_content c) (map page_content ks).
Proof.
  intros sd cfg fn idx q d kids c H Hc. unfold fan_one in H. cbv zeta in H.
  destruct (Nat.ltb _ _).
  - destruct (sd cfg _) as [ks|] eqn:Es; [|discriminate]. injection H as <- <-.
    apply in_mapi_from_In in Hc as [j [x [Hx ->]]]. cbn [metadata page_content].
    split; [exists j; dict_simpl; reflexivity|]. split; [dict_simpl; reflexivity|].
    exists ks. split; [exact Es | apply in_map; exact Hx].
  - injection H as _ <-. contradiction.
Qed.

Lemma fan_out_child : forall sd cfg fn qs rs c,
  fan_out sd cfg fn 0 qs = Some rs -> In c (List.concat (map snd rs)) ->
  exists i d kids j, nth_error rs i = Some (d, kids) /\
    dget (metadata c) (u "child_id") PNone = PStr (parent_id_of fn i ++ u "_child_" ++ show_nat j) /\
    dget (metadata c) (u "parent_id") PNone = PStr (parent_id_of fn i) /\
    exists ks, sd cfg d = Some ks /\ In (page_content c) (map page_content ks).
Proof.
  intros sd cfg fn qs rs c Hfo Hc.
  apply in_concat in Hc as [kids [Hk Hc]]. apply in_map_iff in Hk as [[d kids'] [Hs Hr]].
  cbn [snd] in Hs. subst kids'. apply In_nth_error in Hr as [i Hi].
  destruct (fan_out_nth sd cfg fn qs 0 rs Hfo i (d, kids) Hi) as [q [_ Hfan]].
  rewrite Nat.add_0_l in Hfan.
  destruct (fan_one_child sd cfg fn i q d kids c Hfan Hc) as [[j Hcid] [Hpid Hks]].
  exists i, d, kids, j. repeat split; assumption.
Qed.

Lemma fan_out_parent : forall sd cfg fn qs rs d,
  fan_out sd cfg fn 0 qs = Some rs -> In d (map fst rs) ->
  exists i kids, nth_error rs i = Some (d, kids) /\
    dget (metadata d) (u "parent_id") PNone = PStr (parent_id_of fn i).
Proof.
  intros sd cfg fn qs rs d Hfo Hd. apply in_map_iff in Hd as [[d' kids] [Hf Hr]].
  cbn [fst] in Hf. subst d'. apply In_nth_error in Hr as [i Hi].
  destruct (fan_out_nth sd cfg fn qs 0 rs Hfo i (d, kids) Hi) as [q [_ Hfan]].
  rewrite Nat.add_0_l in Hfan.
  destruct (fan_one_parent sd cfg fn i q d kids Hfan) as [_ [Hpid _]].
  exists i, kids. split; assumption.
Qed.

(** For every child chunk of a successful [chunk_markdown] run, looking up
    its ["child_id"] with [get_parent_context] gives the text of the parent
    chunk it was split from: that parent is in ["parent_chunks"], and the
    child's text is one of the pieces the child splitter made of it. *)
Theorem get_parent_context_of_child :
  forall (py_eq : pyval -> pyval -> bool) split_text split_documents self markdown_content filename r c,
  (forall a b, py_eq (PStr a) (PStr b) = str_eqb a b) ->
  chunk_markdown split_text split_documents self markdown_content filename = Some r ->
  In c (child_chunks r) ->
  exists p child_chunk_id pieces,
    dget (metadata c) (u "child_id") PNone = PStr child_chunk_id /\
    In p (parent_chunks r) /\
    split_documents (child_splitter self) p = Some pieces /\
    In (page_content c) (map page_content pieces) /\
    get_parent_context py_eq (Some r) child_chunk_id = Some (page_content p).
Proof.
  intros py_eq st sd self md fn r c Heq Hcm Hc.
  unfold chunk_markdown in Hcm.
  destruct (st _ _) as [ps0|]; [|discriminate].
  destruct (map_opt restore_header ps0) as [ps|]; [|discriminate].
  destruct (fan_out _ _ _ _ _) as [rs|] eqn:Efo; [|discriminate].
  injection Hcm as <-. cbn [parent_chunks child_chunks] in *.
  destruct (fan_out_child sd _ fn ps rs c Efo Hc) as [i [d [kids [j [Hi [Hcid [_ [ks [Hks Hin]]]]]]]]].
  assert (Hd : In d (map fst rs)) by (apply in_map_iff; exists (d, kids); split;
                                       [reflexivity | exact (nth_error_In _ _ Hi)]).
  exists d, (parent_id_of fn i ++ u "_child_" ++ show_nat j), ks.
  split; [exact Hcid|]. split; [exact Hd|]. split; [exact Hks|]. split; [exact Hin|].
  unfold get_parent_context. cbv zeta. cbn [parent_chunks child_chunks].
  destruct (find _ (List.concat (map snd rs))) as [c'|] eqn:Ef.
  2:{ exfalso. apply find_none with (x := c) in Ef; [|exact Hc].
      rewrite Hcid, Heq, str_eqb_refl in Ef. discriminate. }
  apply find_some in Ef as [Hc' Hf].
  destruct (fan_out_child sd _ fn ps rs c' Efo Hc')
    as [i' [d' [kids' [j' [Hi' [Hcid' [Hpid' _]]]]]]].
  rewrite Hcid', Heq in Hf. apply str_eqb_eq, child_id_parent_index in Hf. subst i'.
  rewrite Hpid', parent_id_of_truthy. cbn [negb].
  destruct (find _ (map fst rs)) as [p'|] eqn:Ep.
  - apply find_some in Ep as [Hp' Hf'].
    destruct (fan_out_parent sd _ fn ps rs p' Efo Hp') as [i2 [kids2 [Hi2 Hpid2]]].
    rewrite Hpid2, Heq in Hf'. apply str_eqb_eq, parent_id_of_inj in Hf'. subst i2.
    rewrite Hi in Hi2. injection Hi2 as -> _. reflexivity.
  - exfalso. apply find_none with (x := d) in Ep; [|exact Hd].
    destruct (fan_out_nth sd _ fn ps 0 rs Efo i (d, kids) Hi) as [q [_ Hfan]].
    rewrite Nat.add_0_l in Hfan.
    destruct (fan_one_parent sd _ fn i q d kids Hfan) as [_ [Hpid _]].
    rewrite Hpid, Heq, str_eqb_refl in Ep. discriminate.
Qed.

Lemma get_parent_context_of_child_witness :
  let r := match chunk_markdown example_split_text example_split_documents example_chunker
                   example_long_text (u "doc") with
           | Some r => r | None => mk_result [] [] end in
  exists p child_chunk_id pieces,
    dget (metadata (hd (mk_doc [] []) (child_chunks r))) (u "child_id") PNone = PStr child_chunk_id /\
    In p (parent_chunks r) /\
    example_split_documents (child_splitter example_chunker) p = Some pieces /\
    In (page_content (hd (mk_doc [] []) (child_chunks r))) (map page_content pieces) /\
    get_parent_context str_ids_eq (Some r) child_chunk_id = Some (page_content p).
Proof.
  intro r.
  apply (get_parent_context_of_child str_ids_eq example_split_text example_split_documents
           example_chunker example_long_text (u "doc") r (hd (mk_doc [] []) (child_chunks r))).
  - intros a b. reflexivity.
  - vm_compute. reflexivity.
  - vm_compute. left. reflexivity.
Defined.

Lemma child_id_not_parent_id : forall fn i i' j,
  parent_id_of fn i <> parent_id_of fn i' ++ u "_child_" ++ show_nat j.
Proof.
  intros fn i i' j H. unfold parent_id_of in H. rewrite <- !app_assoc in H.
  apply app_inv_head in H. apply app_inv_head in H.
  assert (Hc : u "_child_" = 95 :: u "child_") by reflexivity. rewrite Hc in H.
  assert (D := uint_to_str_digits (Nat.to_uint i)). fold (show_nat i) in D.
  rewrite H, forallb_app in D. apply andb_true_iff in D as [_ D]. discriminate D.
Qed.

(** [get_parent_context] called with the id of a parent chunk of a
    successful [chunk_markdown] run (the ["chunk_id"] that
    [create_vector_ready_chunks] gives a parent, standalone ones included)
    returns None: no child carries a parent's id. *)
Theorem get_parent_context_parent_id :
  forall (py_eq : pyval -> pyval -> bool) split_text split_documents self markdown_content filename r p pid,
  (forall a b, py_eq (PStr a) (PStr b) = str_eqb a b) ->
  chunk_markdown split_text split_documents self markdown_content filename = Some r ->
  In p (parent_chunks r) ->
  dget (metadata p) (u "parent_id") PNone = PStr pid ->
  get_parent_context py_eq (Some r) pid = None.
Proof.
  intros py_eq st sd self md fn r p pid Heq Hcm Hp Hpid.
  unfold chunk_markdown in Hcm.
  destruct (st _ _) as [ps0|]; [|discriminate].
  destruct (map_opt restore_header ps0) as [ps|]; [|discriminate].
  destruct (fan_out _ _ _ _ _) as [rs|] eqn:Efo; [|discriminate].
  injection Hcm as <-. cbn [parent_chunks child_chunks] in *.
  destruct (fan_out_parent sd _ fn ps rs p Efo Hp) as [i [kids [_ Hpi]]].
  rewrite Hpid in Hpi. injection Hpi as ->.
  unfold get_parent_context. cbv zeta. cbn [child_chunks].
  destruct (find _ (List.concat (map snd rs))) as [c|] eqn:Ef; [|reflexivity].
  apply find_some in Ef as [Hc Hf].
  destruct (fan_out_child sd _ fn ps rs c Efo Hc) as [i' [d [ks [j [_ [Hcid _]]]]]].
  rewrite Hcid, Heq in Hf. apply str_eqb_eq in Hf. symmetry in Hf.
  exfalso. exact (child_id_not_parent_id fn i i' j Hf).
Qed.

Lemma get_parent_context_parent_id_witness :
  get_parent_context str_ids_eq
    (chunk_markdown example_split_text example_split_documents example_chunker
       example_long_text (u "doc")) (u "doc_parent_0") = None.
Proof.
  destruct (chunk_markdown example_split_text example_split_documents example_chunker
              example_long_text (u "doc")) as [r|] eqn:E; [|reflexivity].
  apply (get_parent_context_parent_id str_ids_eq example_split_text example_split_documents
           example_chunker example_long_text (u "doc") r (hd (mk_doc [] []) (parent_chunks r))).
  - intros a b. reflexivity.
  - exact E.
  - vm_compute in E. injection E as <-. left. reflexivity.
  - vm_compute in E. injection E as <-. reflexivity.
Defined.

(* ------------------------------------------------------------------ *)
(** ** Chunk ids of the vector-ready chunks *)

Lemma NoDup_map_inj : forall {A B} (f : A -> B) l,
  (forall x y, f x = f y -> x = y) -> NoDup l -> NoDup (map f l).
Proof.
  intros A B f l Hf Hl. apply NoDup_map_NoDup_ForallPairs; [|exact Hl].
  intros x y _ _. apply Hf.
Qed.

Definition child_id_of (fn : str) (i j : nat) : pyval :=
  PStr (parent_id_of fn i ++ u "_child_" ++ show_nat j).

Lemma child_id_of_inj : forall fn i j i' j',
  child_id_of fn i j = child_id_of fn i' j' -> i = i' /\ j = j'.
Proof.
  intros fn i j i' j' H. injection H as H.
  assert (Hi := child_id_parent_index fn i j i' j' H). subst i'. split; [reflexivity|].
  apply app_inv_head in H. apply show_nat_inj. injection H as H. exact H.
Qed.

Lemma fan_one_child_ids : forall sd cfg fn idx q d kids,
  fan_one sd cfg fn idx q = Some (d, kids) ->
  map (fun c => dget (metadata c) (u "child_id") PNone) kids =
  map (child_id_of fn idx) (seq 0 (List.length kids)).
Proof.
  intros sd cfg fn idx q d kids H. unfold fan_one in H. cbv zeta in H.
  destruct (Nat.ltb _ _).
  - destruct (sd cfg _) as [ks|]; [|discriminate]. injection H as _ <-.
    generalize 0%nat as k. induction ks as [|x ks IH]; intro k; [reflexivity|].
    cbn [mapi_from map List.length seq]. f_equal; [|apply IH].
    cbn [metadata]. dict_simpl. reflexivity.
  - injection H as _ <-. reflexivity.
Qed.

Lemma fan_out_child_ids : forall sd cfg fn qs idx rs,
  fan_out sd cfg fn idx qs = Some rs ->
  let ids := map (fun c => dget (metadata c) (u "child_id") PNone) (List.concat (map snd rs)) in
  NoDup ids /\ forall x, In x ids -> exists k j, (idx <= k)%nat /\ x = child_id_of fn k j.
Proof.
  intros sd cfg fn qs. induction qs as [|q qs IH]; intros idx rs H; simpl in H.
  - injection H as <-. split; [constructor | intros x []].
  - destruct (fan_one _ _ _ _ _) as [[d ks]|] eqn:E0; [|discriminate].
    destruct (fan_out _ _ _ _ _) as [rs'|] eqn:E1; [|discriminate]. injection H as <-.
    destruct (IH (S idx) rs' E1) as [ND Hk]. cbv zeta in *.
    cbn [map snd List.concat]. rewrite map_app, (fan_one_child_ids sd cfg fn idx q d ks E0).
    split.
    + apply NoDup_app; [|exact ND|].
      * apply NoDup_map_inj; [|apply seq_NoDup].
        intros x y Hxy. exact (proj2 (child_id_of_inj fn idx x idx y Hxy)).
      * intros a Ha Hb. apply in_map_iff in Ha as [j [<- _]].
        destruct (Hk _ Hb) as [k [j' [Hle Heq]]].
        apply child_id_of_inj in Heq as [-> _]. lia.
    + intros x Hx. apply in_app_or in Hx as [Hx|Hx].
      * apply in_map_iff in Hx as [j [<- _]]. exists idx, j. split; [lia | reflexivity].
      * destruct (Hk x Hx) as [k [j [Hle ->]]]. exists k, j. split; [lia | reflexivity].
Qed.

Lemma fan_out_parent_ids : forall sd cfg fn qs idx rs,
  fan_out sd cfg fn idx qs = Some rs ->
  map (fun d => dget (metadata d) (u "parent_id") PNone) (map fst rs) =
  map (fun k => PStr (parent_id_of fn k)) (seq idx (List.length rs)).
Proof.
  intros sd cfg fn qs. induction qs as [|q qs IH]; intros idx rs H; simpl in H.
  - injection H as <-. reflexivity.
  - destruct (fan_one _ _ _ _ _) as [[d ks]|] eqn:E0; [|discriminate].
    destruct (fan_out _ _ _ _ _) as [rs'|] eqn:E1; [|discriminate]. injection H as <-.
    cbn [map fst List.length seq]. f_equal; [|apply (IH (S idx) rs' E1)].
    exact (proj1 (proj2 (fan_one_parent sd cfg fn idx q d ks E0))).
Qed.

(** The ["chunk_id"]s of the chunks [create_vector_ready_chunks] builds from
    a [chunk_markdown] run are pairwise distinct: parents carry
    [<filename>_parent_<i>], children [<filename>_parent_<i>_child_<j>], and
    no two chunks share an id (whatever the splitters return). *)
Theorem create_vector_ready_chunks_ids_unique :
  forall split_text split_documents self markdown_content filename,
  NoDup (map (fun v => dget v (u "chunk_id") PNone)
           (create_vector_ready_chunks
              (chunk_markdown split_text split_documents self markdown_content filename))).
Proof.
  intros st sd self md fn. unfold create_vector_ready_chunks, chunk_markdown.
  destruct (st _ _) as [ps0|]; [|constructor].
  destruct (map_opt restore_header ps0) as [ps|]; [|constructor].
  destruct (fan_out _ _ _ _ _) as [rs|] eqn:Efo; [|constructor].
  cbn [parent_chunks child_chunks].
  rewrite map_app.
  assert (EP : map (fun v => dget v (u "chunk_id") PNone) (map parent_data (map fst rs)) =
               map (fun k => PStr (parent_id_of fn k)) (seq 0 (List.length rs)))
    by (rewrite map_map; exact (fan_out_parent_ids sd _ fn ps 0 rs Efo)).
  assert (EC : map (fun v => dget v (u "chunk_id") PNone) (map child_data (List.concat (map snd rs))) =
               map (fun c => dget (metadata c) (u "child_id") PNone) (List.concat (map snd rs)))
    by (rewrite map_map; reflexivity).
  rewrite EP, EC.
  destruct (fan_out_child_ids sd _ fn ps 0 rs Efo) as [ND Hk]. cbv zeta in *.
  apply NoDup_app; [|exact ND|].
  - apply NoDup_map_inj; [|apply seq_NoDup].
    intros x y Hxy. injection Hxy as Hxy. exact (parent_id_of_inj fn x y Hxy).
  - intros a Ha Hb. apply in_map_iff in Ha as [i [<- _]].
    destruct (Hk _ Hb) as [k [j [_ Heq]]]. injection Heq as Heq.
    exact (child_id_not_parent_id fn i k j Heq).
Qed.

(* ------------------------------------------------------------------ *)
(** ** The two section splitters *)

Lemma lstrip_head : forall s x t, lstrip s = x :: t -> is_space x = false.
Proof.
  induction s as [|c s IH]; intros x t H; simpl in H; [discriminate|].
  destruct (is_space c) eqn:E; [exact (IH x t H) | injection H as -> _; exact E].
Qed.

Lemma strip_has_text : forall s, strip s <> [] -> has_text (strip s) = true.
Proof.
  intros s H. unfold strip in *. destruct (lstrip (rev (lstrip s))) as [|x t] eqn:E;
    [contradiction H; reflexivity|].
  apply existsb_exists. exists x. split.
  - apply in_rev. rewrite rev_involutive. left. reflexivity.
  - rewrite (lstrip_head _ x t E). reflexivity.
Qed.

Lemma has_text_app_r : forall a b, has_text b = true -> has_text (a ++ b) = true.
Proof. intros a b H. unfold has_text in *. rewrite existsb_app, H. apply orb_true_r. Qed.

Definition sd2 (hc : str * str) : dict := section_dict (fst hc) (snd hc).

Lemma scan_contract_rel : forall lines secs h c (b : bool),
  let r := scan_lines lines secs (h, c) in
  exists b' : bool,
    scan_contract_lines lines (map sd2 secs) (if b then section_dict h c else open_section h c)
    = (map sd2 (fst r), if b' then section_dict (fst (snd r)) (snd (snd r))
                        else open_section (fst (snd r)) (snd (snd r))) /\
    (b' = false -> b = false /\ fst r = secs /\ fst (snd r) = h).
Proof.
  induction lines as [|line0 rest IH]; intros secs h c b r; subst r.
  - exists b. split; [reflexivity | intros ->; auto].
  - cbn [scan_lines scan_contract_lines]. cbv zeta.
    destruct (strip line0) as [|x xs] eqn:Es; [apply IH|].
    assert (Hc : section_content (if b then section_dict h c else open_section h c) = c)
      by (destruct b; reflexivity).
    rewrite Hc. cbn [snd fst]. destruct (section_header (x :: xs) c) as [ht|].
    + replace (if has_text c
               then map sd2 secs ++
                    [dset (if b then section_dict h c else open_section h c)
                       (u "chunk_type") (PStr (u "parent"))]
               else map sd2 secs)
        with (map sd2 (if has_text c then secs ++ [(h, c)] else secs))
        by (destruct (has_text c); [rewrite map_app; destruct b; reflexivity | reflexivity]).
      destruct (IH (if has_text c then secs ++ [(h, c)] else secs) ht [] true) as [b' [E Hb]].
      exists b'. split; [exact E|]. intro Hf. destruct (Hb Hf) as [Ht _]. discriminate Ht.
    + assert (Hm : forall X, dset (if b then section_dict h c else open_section h c)
                                  (u "content") (PStr X) =
                             if b then section_dict h X else open_section h X)
        by (intro X; destruct b; reflexivity).
      rewrite Hm. destruct c as [|c0 cs];
        [exact (IH secs h (x :: xs) b) | exact (IH secs h ((c0 :: cs) ++ [10] ++ x :: xs) b)].
Qed.

Lemma scan_contract_preamble : forall lines secs h c,
  scan_lines lines [] (u "서문", []) = (secs, (h, c)) ->
  exists b' : bool,
    scan_contract_lines lines [] (open_section (u "서문") []) =
      (map sd2 secs, if b' then section_dict h c else open_section h c) /\
    (b' = false -> secs = [] /\ h = u "서문").
Proof.
  intros lines secs h c Es.
  destruct (scan_contract_rel lines [] (u "서문") [] false) as [b' [E Hb]].
  assert (Es' : scan_lines lines [] (@pair str str (u "서문") []) = (secs, (h, c))) by exact Es.
  rewrite Es' in E, Hb. exists b'. split; [exact E|].
  intro Hf. destruct (Hb Hf) as [_ H]. exact H.
Qed.

(** [_split_contract_into_sections] returns the sections
    [_create_manual_sections] returns for the same markdown, with one
    exception: when no line opens a section and the text is not blank, both
    return the single preamble section "서문" holding the text, and the
    contract splitter's dict lacks the ["chunk_type"] key. *)
Theorem split_contract_vs_manual_sections : forall markdown_content,
  split_contract_into_sections markdown_content =
    create_manual_sections [(u "markdown_content", PStr markdown_content)] \/
  exists c,
    create_manual_sections [(u "markdown_content", PStr markdown_content)] =
      [section_dict (u "서문") c] /\
    split_contract_into_sections markdown_content = [open_section (u "서문") c] /\
    dmem (open_section (u "서문") c) (u "chunk_type") = false.
Proof.
  intro md. unfold create_manual_sections.
  replace (dget [(u "markdown_content", PStr md)] (u "markdown_content") (PStr []))
    with (PStr md) by (cbn [dget]; rewrite str_eqb_refl; reflexivity).
  destruct md as [|ch md']; [left; vm_compute; reflexivity|].
  unfold split_contract_into_sections, header_sections.
  destruct (scan_lines (split_char 10 (ch :: md')) [] (u "서문", [])) as [secs [h c]] eqn:Es.
  destruct (scan_contract_preamble _ _ _ _ Es) as [b' [E Hb]]. rewrite E.
  assert (Hc : section_content (if b' then section_dict h c else open_section h c) = c)
    by (destruct b'; reflexivity).
  rewrite Hc. cbn [fst snd]. destruct b'.
  - left. destruct (has_text c).
    + replace (map sd2 secs ++ [section_dict h c]) with (map sd2 (secs ++ [(h, c)]))
        by (rewrite map_app; reflexivity).
      destruct (secs ++ [(h, c)]) as [|s0 ss] eqn:Eapp; [destruct secs; discriminate|].
      reflexivity.
    + destruct secs; reflexivity.
  - destruct (Hb eq_refl) as [-> ->]. destruct (has_text c).
    + right. exists c. split; [reflexivity|]. split; [reflexivity|]. reflexivity.
    + left. reflexivity.
Qed.

Lemma scan_lines_all_headers : forall lines secs h secs' h' c',
  Forall (fun line => strip line = [] \/ section_header (strip line) [] <> None) lines ->
  scan_lines lines secs (h, []) = (secs', (h', c')) -> secs' = secs /\ c' = [].
Proof.
  induction lines as [|line0 rest IH]; intros secs h secs' h' c' Hall Es.
  - injection Es as <- _ <-. split; reflexivity.
  - inversion Hall as [|? ? Hl Hrest]; subst.
    cbn [scan_lines] in Es. cbv zeta in Es.
    destruct (strip line0) as [|x xs] eqn:Est; [exact (IH secs h secs' h' c' Hrest Es)|].
    destruct Hl as [Hl|Hl]; [discriminate Hl|]. cbn [snd] in Es.
    destruct (section_header (x :: xs) []) as [ht|]; [|contradiction Hl; reflexivity].
    exact (IH secs ht secs' h' c' Hrest Es).
Qed.

Lemma scan_lines_nonempty : forall lines secs h c secs' h' c',
  (secs <> [] \/ has_text c = true) ->
  scan_lines lines secs (h, c) = (secs', (h', c')) -> secs' <> [] \/ has_text c' = true.
Proof.
  induction lines as [|line0 rest IH]; intros secs h c secs' h' c' Hne Es.
  - injection Es as <- _ <-. exact Hne.
  - cbn [scan_lines] in Es. cbv zeta in Es.
    destruct (strip line0) as [|x xs] eqn:Est; [exact (IH secs h c secs' h' c' Hne Es)|].
    assert (Hx : has_text (x :: xs) = true)
      by (rewrite <- Est; apply strip_has_text; rewrite Est; discriminate).
    cbn [snd fst] in Es. destruct (section_header (x :: xs) c) as [ht|].
    + apply (IH (if has_text c then secs ++ [(h, c)] else secs) ht [] secs' h' c');
        [left | exact Es].
      destruct (has_text c) eqn:Ec.
      * destruct secs; discriminate.
      * destruct Hne as [Hne|Hne]; [exact Hne | discriminate Hne].
    + apply (IH secs h (match c with [] => x :: xs | _ => c ++ [10] ++ x :: xs end) secs' h' c');
        [right | destruct c; exact Es].
      destruct c as [|c0 cs]; [exact Hx|]. apply has_text_app_r, has_text_app_r. exact Hx.
Qed.

Lemma scan_lines_some_body : forall lines secs h secs' h' c',
  Exists (fun line => strip line <> [] /\ section_header (strip line) [] = None) lines ->
  scan_lines lines secs (h, []) = (secs', (h', c')) -> secs' <> [] \/ has_text c' = true.
Proof.
  induction lines as [|line0 rest IH]; intros secs h secs' h' c' Hex Es.
  - inversion Hex.
  - cbn [scan_lines] in Es. cbv zeta in Es.
    destruct (strip line0) as [|x xs] eqn:Est.
    + inversion Hex as [? ? [Hl _]|? ? Hrest]; subst; [contradiction Hl; reflexivity|].
      exact (IH secs h secs' h' c' Hrest Es).
    + assert (Hx : has_text (x :: xs) = true)
        by (rewrite <- Est; apply strip_has_text; rewrite Est; discriminate).
      cbn [snd fst] in Es. destruct (section_header (x :: xs) []) as [ht|] eqn:Eh.
      * inversion Hex as [? ? [_ Hl]|? ? Hrest]; subst; [rewrite Est, Eh in Hl; discriminate Hl|].
        exact (IH secs ht secs' h' c' Hrest Es).
      * exact (scan_lines_nonempty rest secs h (x :: xs) secs' h' c' (or_intror Hx) Es).
Qed.

Lemma scan_lines_sections_text : forall lines secs cur secs' cur',
  Forall (fun hc : str * str => has_text (snd hc) = true) secs ->
  scan_lines lines secs cur = (secs', cur') ->
  Forall (fun hc : str * str => has_text (snd hc) = true) secs'.
Proof.
  induction lines as [|line0 rest IH]; intros secs cur secs' cur' Hs Es.
  - injection Es as <- _. exact Hs.
  - cbn [scan_lines] in Es. cbv zeta in Es.
    destruct (strip line0) as [|x xs]; [exact (IH _ _ _ _ Hs Es)|].
    destruct (section_header (x :: xs) (snd cur)) as [ht|]; [|exact (IH _ _ _ _ Hs Es)].
    apply (IH (if has_text (snd cur) then secs ++ [cur] else secs) (ht, []) secs' cur');
      [|exact Es].
    destruct (has_text (snd cur)) eqn:Ec; [|exact Hs].
    apply Forall_app. split; [exact Hs | constructor; [exact Ec | constructor]].
Qed.

(** [_create_manual_sections] falls back to the paragraph split exactly when
    every non-blank line of the text opens a section (a [#] heading, a
    제N조 line, an [Article] line or a numbered line longer than 10
    characters); as soon as one non-blank line does not, it returns the
    line loop's sections: at least one, each with non-blank content and
    ["chunk_type"] "parent". *)
Theorem create_manual_sections_paths : forall markdown_content,
  markdown_content <> [] ->
  let out := create_manual_sections [(u "markdown_content", PStr markdown_content)] in
  (Forall (fun line => strip line = [] \/ section_header (strip line) [] <> None)
          (split_char 10 markdown_content) ->
     out = paragraph_sections markdown_content) /\
  (Exists (fun line => strip line <> [] /\ section_header (strip line) [] = None)
          (split_char 10 markdown_content) ->
     out = map sd2 (header_sections markdown_content) /\ out <> [] /\
     Forall (fun d => dget d (u "chunk_type") PNone = PStr (u "parent") /\
                      has_text (section_content d) = true) out).
Proof.
  intros md Hmd out. subst out. unfold create_manual_sections.
  replace (dget [(u "markdown_content", PStr md)] (u "markdown_content") (PStr []))
    with (PStr md) by (cbn [dget]; rewrite str_eqb_refl; reflexivity).
  destruct md as [|ch md']; [contradiction Hmd; reflexivity|].
  unfold header_sections.
  destruct (scan_lines (split_char 10 (ch :: md')) [] (u "서문", [])) as [secs [h c]] eqn:Es.
  cbn [snd]. split.
  - intro Hall. destruct (scan_lines_all_headers _ [] _ secs h c Hall Es) as [-> ->].
    reflexivity.
  - intro Hex.
    assert (Hne : (if has_text c then secs ++ [(h, c)] else secs) <> []).
    { destruct (scan_lines_some_body _ [] _ secs h c Hex Es) as [H|H].
      - destruct (has_text c); [destruct secs; discriminate | exact H].
      - rewrite H. destruct secs; discriminate. }
    assert (Ht : Forall (fun hc : str * str => has_text (snd hc) = true)
                   (if has_text c then secs ++ [(h, c)] else secs)).
    { assert (Hs := scan_lines_sections_text _ [] _ secs (h, c) (Forall_nil _) Es).
      destruct (has_text c) eqn:Ec; [|exact Hs].
      apply Forall_app. split; [exact Hs | constructor; [exact Ec | constructor]]. }
    destruct (if has_text c then secs ++ [(h, c)] else secs) as [|s0 ss];
      [contradiction Hne; reflexivity|].
    split; [reflexivity|]. split; [discriminate|].
    apply Forall_forall. intros d Hd. apply in_map_iff in Hd as [hc [<- Hin]].
    rewrite Forall_forall in Ht. specialize (Ht hc Hin).
    split; [reflexivity|]. exact Ht.
Qed.

Lemma create_manual_sections_paths_witness :
  create_manual_sections [(u "markdown_content", PStr (u "# 제1조
본문"))] <> [].
Proof.
  assert (Hex : Exists (fun line => strip line <> [] /\ section_header (strip line) [] = None)
                  (split_char 10 (u "# 제1조
본문"))).
  { apply Exists_exists. exists (u "본문"). split.
    - vm_compute. right. left. reflexivity.
    - split; [vm_compute; discriminate | vm_compute; reflexivity]. }
  destruct (proj2 (create_manual_sections_paths (u "# 제1조
본문") ltac:(discriminate)) Hex) as [_ [H _]].
  exact H.
Defined.

(* ------------------------------------------------------------------ *)
(** ** Shape of a weighted hybrid result *)

Lemma Sorted_firstn : forall {A} (R : A -> A -> Prop) n l, Sorted R l -> Sorted R (firstn n l).
Proof.
  intros A R n l. revert n. induction l as [|x l IH]; intros [|n] Hs; simpl; try constructor.
  - inversion Hs as [|? ? Hl Hh]; subst. apply IH. exact Hl.
  - inversion Hs as [|? ? Hl Hh]; subst. destruct l as [|y l]; destruct n; simpl; constructor.
    inversion Hh. assumption.
Qed.

Lemma py_slice_incl : forall {A} k (l : list A) x, In x (py_slice k l) -> In x l.
Proof.
  intros A k l x H. unfold py_slice in H.
  destruct (0 <=? k)%Z;
    [rewrite <- (firstn_skipn (Z.to_nat k) l) | rewrite <- (firstn_skipn (List.length l - Z.to_nat (- k)) l)];
    apply in_or_app; left; exact H.
Qed.

(** Every weighted result of the hybrid search is sorted by weighted score
    in descending order and, for [top_k >= 0], holds at most [top_k] rows.
    A row marked "system" is a row of the global search weighted by
    [system_weight]; a row marked "room" only occurs when a [room_id] was
    given, is a row of the room search flagged [is_room_document], and is
    weighted by [room_weight]. *)
Theorem search_documents_hybrid_weighted_shape :
  forall fmul db emb room_id doc_types top_k system_weight room_weight l,
  search_documents_hybrid fmul db emb room_id doc_types top_k system_weight room_weight
    = Weighted l ->
  Sorted (fun a b => weighted_score b <= weighted_score a)%Q l /\
  ((0 <= top_k)%Z -> (List.length l <= Z.to_nat top_k)%nat) /\
  exists system_results,
    db 0%nat (ByVector emb doc_types top_k) = Ret system_results /\
    Forall (fun x =>
      match source_type x with
      | SrcSystem =>
        In (result_row x) system_results /\
        weighted_score x = fmul (similarity_score (result_row x)) system_weight
      | SrcRoom =>
        exists rid rows,
          room_id = Some rid /\ db 1%nat (WithRoomContext emb rid doc_types top_k) = Ret rows /\
          In (result_row x) rows /\ is_room_document (result_row x) = true /\
          weighted_score x = fmul (similarity_score (result_row x)) room_weight
      end) l.
Proof.
  intros fmul db emb room_id doc_types top_k sw rw l H.
  unfold search_documents_hybrid in H.
  destruct (db 0%nat (ByVector emb doc_types top_k)) as [sys|] eqn:Es;
    [|unfold hybrid_fallback in H; destruct (db 1%nat _); discriminate].
  destruct (room_search db emb room_id doc_types top_k) as [room|] eqn:Er;
    [|unfold hybrid_fallback in H; destruct (db 2%nat _); discriminate].
  injection H as <-. split; [|split].
  - unfold py_slice. destruct (0 <=? top_k)%Z; apply Sorted_firstn, sort_desc_sorted.
  - intro Hk. unfold py_slice. apply Z.leb_le in Hk. rewrite Hk, length_firstn. lia.
  - exists sys. split; [reflexivity|]. apply Forall_forall. intros x Hx.
    apply py_slice_incl in Hx. apply (Permutation_in _ (Permutation_sym (sort_desc_perm _))) in Hx.
    apply in_app_or in Hx as [Hx|Hx]; apply in_map_iff in Hx as [r [<- Hr]]; cbn.
    + split; [exact Hr | reflexivity].
    + unfold room_search in Er. destruct room_id as [rid|]; [|injection Er as <-; contradiction].
      destruct (db 1%nat (WithRoomContext emb rid doc_types top_k)) as [rows|] eqn:Ed;
        [|discriminate]. injection Er as <-. apply filter_In in Hr as [Hr Hflag].
      exists rid, rows. repeat split; assumption.
Qed.

Lemma search_documents_hybrid_weighted_shape_witness :
  (List.length (match search_documents_hybrid Qmult
      (fun _ c => match c with
                  | ByVector _ _ _ => Ret [mk_row 1 (1#2) false; mk_row 4 (1#3) false]
                  | WithRoomContext _ _ _ _ => Ret [mk_row 2 (9#10) true; mk_row 3 (1#4) false]
                  end) [] (Some 7%Z) [] 2 DEFAULT_SYSTEM_WEIGHT DEFAULT_ROOM_WEIGHT
                with Weighted l => l | _ => [] end) <= 2)%nat.
Proof.
  apply (proj1 (proj2 (search_documents_hybrid_weighted_shape Qmult
      (fun _ c => match c with
                  | ByVector _ _ _ => Ret [mk_row 1 (1#2) false; mk_row 4 (1#3) false]
                  | WithRoomContext _ _ _ _ => Ret [mk_row 2 (9#10) true; mk_row 3 (1#4) false]
                  end) [] (Some 7%Z) [] 2 DEFAULT_SYSTEM_WEIGHT DEFAULT_ROOM_WEIGHT _ eq_refl))).
  lia.
Defined.

(* ------------------------------------------------------------------ *)
(** ** Image OCR integration *)

Lemma replace_first_absent : forall old new s,
  contains old s = false -> replace_first old new s = s.
Proof.
  intros old new s. induction s as [|c s IH]; intro H; simpl in H |- *.
  - destruct (starts_with old []); [discriminate H | reflexivity].
  - apply orb_false_iff in H as [H1 H2]. rewrite H1. f_equal. exact (IH H2).
Qed.

Lemma integrate_fold_none : forall imgs,
  fold_left (fun acc image_info =>
               match acc with
               | None => None
               | Some enhanced_markdown =>
                 if ocr_eligible image_info then
                   if dmem image_info (u "image_index") then
                     Some (replace_first IMAGE_PLACEHOLDER
                             (ocr_block (dget image_info (u "image_index") PNone)
                                        (dget image_info (u "ocr_text") PNone))
                             enhanced_markdown)
                   else None
                 else Some enhanced_markdown
               end) imgs None = None.
Proof. induction imgs as [|i imgs IH]; [reflexivity | exact IH]. Qed.

(** On a markdown text without any ["<!-- image -->"] placeholder,
    [integrate_image_ocr] returns the text unchanged, unless some image
    with truthy ["ocr_text"] and ["is_info_rich"] has no ["image_index"]:
    then the lookup raises [KeyError] (even though nothing would be
    replaced). *)
Theorem integrate_image_ocr_no_placeholder : forall markdown_content images_data,
  contains IMAGE_PLACEHOLDER markdown_content = false ->
  integrate_image_ocr markdown_content images_data =
    if forallb (fun i => negb (ocr_eligible i) || dmem i (u "image_index")) images_data
    then Some markdown_content else None.
Proof.
  intros md imgs H. unfold integrate_image_ocr.
  induction imgs as [|i imgs IH]; [reflexivity|]. cbn [fold_left forallb].
  destruct (ocr_eligible i); cbn [negb orb].
  - destruct (dmem i (u "image_index")); cbn [andb].
    + rewrite replace_first_absent by exact H. exact IH.
    + apply integrate_fold_none.
  - exact IH.
Qed.

Lemma integrate_image_ocr_no_placeholder_witness :
  integrate_image_ocr (u "plain text")
    [[(u "ocr_text", PStr (u "scanned")); (u "is_info_rich", PBool true)]] = None /\
  integrate_image_ocr (u "plain text")
    [[(u "ocr_text", PStr (u "scanned")); (u "is_info_rich", PBool true); (u "image_index", PInt 1)]]
  = Some (u "plain text").
Proof.
  split.
  - rewrite integrate_image_ocr_no_placeholder by (vm_compute; reflexivity). reflexivity.
  - rewrite integrate_image_ocr_no_placeholder by (vm_compute; reflexivity). reflexivity.
Defined.

(** Images whose ["ocr_text"] or ["is_info_rich"] is falsy play no part:
    [integrate_image_ocr] gives the same outcome with them removed. *)
Theorem integrate_image_ocr_ignores_ineligible : forall markdown_content images_data,
  integrate_image_ocr markdown_content images_data =
  integrate_image_ocr markdown_content (filter ocr_eligible images_data).
Proof.
  intros md imgs. unfold integrate_image_ocr. generalize (Some md) as acc.
  induction imgs as [|i imgs IH]; intro acc; [reflexivity|].
  cbn [fold_left filter]. destruct (ocr_eligible i) eqn:E.
  - cbn [fold_left]. rewrite E. apply IH.
  - rewrite IH. destruct acc; reflexivity.
Qed.

(* ------------------------------------------------------------------ *)
(** ** Segmenter without header sections *)

Lemma map_opt_nil_inv : forall {A B} (f : A -> option B) l,
  map_opt f l = Some [] -> l = [].
Proof.
  intros A B f [|x l] H; [reflexivity|]. simpl in H.
  destruct (f x), (map_opt f l); discriminate.
Qed.

Lemma fan_out_nil_inv : forall sd cfg fn idx ps,
  fan_out sd cfg fn idx ps = Some [] -> ps = [].
Proof.
  intros sd cfg fn idx [|p ps] H; [reflexivity|]. simpl in H.
  destruct (fan_one sd cfg fn idx p); [|discriminate].
  destruct (fan_out sd cfg fn (S idx) ps); discriminate.
Qed.

(** ** C6 (amended).  [chunk_markdown], the segmenter the pipeline uses, has
    no paragraph fallback: when header splitting of the preprocessed text
    yields no section, it returns a successful result with no parent chunk
    and no child chunk, and [create_vector_ready_chunks] yields no chunk.
    Conversely a successful result has no parent chunk only when header
    splitting yielded no section. *)
Theorem chunk_markdown_no_paragraph_fallback :
  forall split_text split_documents self markdown_content filename,
  (split_text (headers_to_split_on self) (preprocess markdown_content) = Some [] ->
   chunk_markdown split_text split_documents self markdown_content filename = Some (mk_result [] []) /\
   create_vector_ready_chunks
     (chunk_markdown split_text split_documents self markdown_content filename) = []) /\
  (forall r, chunk_markdown split_text split_documents self markdown_content filename = Some r ->
   parent_chunks r = [] ->
   split_text (headers_to_split_on self) (preprocess markdown_content) = Some []).
Proof.
  intros st sd self md fn. split.
  - intro H. unfold chunk_markdown. rewrite H. split; reflexivity.
  - intros r H Hp. unfold chunk_markdown in H.
    destruct (st (headers_to_split_on self) (preprocess md)) as [ps0|]; [|discriminate].
    destruct (map_opt restore_header ps0) as [ps|] eqn:Em; [|discriminate].
    destruct (fan_out sd (child_splitter self) fn 0 ps) as [rs|] eqn:Ef; [|discriminate].
    injection H as <-. cbn [parent_chunks] in Hp.
    destruct rs as [|r0 rs]; [|discriminate Hp].
    apply fan_out_nil_inv in Ef. subst ps.
    apply map_opt_nil_inv in Em. subst ps0. reflexivity.
Qed.

Lemma chunk_markdown_no_paragraph_fallback_witness :
  let md := u "# " ++ repeat (120 : char) 60 in
  chunk_markdown example_header_split_text example_split_documents example_chunker md (u "doc")
  = Some (mk_result [] []) /\
  (forall r, chunk_markdown example_split_text example_split_documents example_chunker
               (u "본문") (u "doc") = Some r ->
   parent_chunks r = [] ->
   example_split_text HEADERS_TO_SPLIT_ON (preprocess (u "본문")) = Some []).
Proof.
  intro md. split.
  - destruct (chunk_markdown_no_paragraph_fallback example_header_split_text example_split_documents
                example_chunker md (u "doc")) as [H _].
    apply H. vm_compute. reflexivity.
  - exact (proj2 (chunk_markdown_no_paragraph_fallback example_split_text example_split_documents
                    example_chunker (u "본문") (u "doc"))).
Defined.

(** C6 fails as stated: a contract whose only line is an article heading
    with its text on the same line (["제1조 xxx..."], 64 characters) becomes
    a single header line after preprocessing, so header splitting yields no
    section; the text is one paragraph longer than 50 characters, yet
    [chunk_markdown] returns no parent chunk and nothing is kept. *)
Lemma chunk_markdown_article_line_dropped :
  let md := u "제1조 " ++ repeat (120 : char) 60 in
  example_header_split_text HEADERS_TO_SPLIT_ON (preprocess md) = Some [] /\
  filter (fun p => Nat.ltb 50 (List.length p)) (paragraphs_of md) = [md] /\
  chunk_markdown example_header_split_text example_split_documents example_chunker md (u "doc")
  = Some (mk_result [] []) /\
  create_vector_ready_chunks
    (chunk_markdown example_header_split_text example_split_documents example_chunker md (u "doc"))
  = [].
Proof. vm_compute. split; [reflexivity | split; [reflexivity | split; reflexivity]]. Qed.
